(** * Expense3: receipt field extraction and receipt/transaction matching

    A shallow embedding of the two algorithmic cores of the repository:
    - [findPotentialMatches] and the auto-match policy
      (backend/routes/matches.js, and the copy in the receipts route), and
    - [processReceiptOCR], the amount / date / merchant extraction of the
      receipts route.

    Conventions.
    - A JavaScript string is the list of its UTF-16 code units ([N]).
    - A monetary amount is a binary64 number ([float]): [parseFloat] rounds
      the decimal literal to the nearest double, the amount difference of
      the engine is computed and compared in binary64, and [null] is [None].
    - The running confidence of the engine, a sum of small integers and of
      one capped quotient, is kept as an exact rational ([Q]); a threshold
      is the exact value of the number received.
    - Library code the routes call ([String.prototype.toLowerCase], moment,
      [Date], node-sqlite3) is taken as an interface; small reference
      instances are given so that every function can be run on concrete
      inputs. *)

From Stdlib Require Import List Bool Arith NArith ZArith QArith Qround Qabs.
From Stdlib Require Import String Ascii DecimalString Lia Lqa Permutation Sorted.
From Stdlib Require Import Floats.
Import ListNotations.

Set Implicit Arguments.
Close Scope Q_scope.

(* ================================================================== *)
(** * JavaScript strings                                                *)
(* ================================================================== *)

Module JS.

Local Open Scope N_scope.

Definition char := N.
Definition jsstring := list char.

(** ASCII literal to code units. *)
Definition js (s : string) : jsstring :=
  map N_of_ascii (list_ascii_of_string s).

Definition ch (a : ascii) : char := N_of_ascii a.

Definition char_eqb (a b : char) : bool := N.eqb a b.

Fixpoint str_eqb (a b : jsstring) : bool :=
  match a, b with
  | [], [] => true
  | x :: a', y :: b' => char_eqb x y && str_eqb a' b'
  | _, _ => false
  end.

Definition in_range (lo hi c : char) : bool := (N.leb lo c && N.leb c hi)%bool.

Definition isDigit (c : char) : bool := in_range 48 57 c.
Definition isUpper (c : char) : bool := in_range 65 90 c.
Definition isLower (c : char) : bool := in_range 97 122 c.
Definition isLetter (c : char) : bool := (isUpper c || isLower c)%bool.
Definition isWordChar (c : char) : bool :=
  (isLetter c || isDigit c || char_eqb c 95)%bool.

(** White space and line terminators: the set of [\s] and of [trim]. *)
Definition isSpace (c : char) : bool :=
  (in_range 9 13 c || char_eqb c 32 || char_eqb c 160 || char_eqb c 5760
   || in_range 8192 8202 c || char_eqb c 8232 || char_eqb c 8233
   || char_eqb c 8239 || char_eqb c 8287 || char_eqb c 12288
   || char_eqb c 65279)%bool.

(** The lower-case mapping of the ASCII range: what the [i] flag of a
    regular expression compares the letters of an ASCII pattern by, and what
    [toLowerCase] does to ASCII text. *)
Definition lowerChar (c : char) : char :=
  if isUpper c then (c + 32)%N else c.

Definition isAscii (c : char) : bool := N.ltb c 128.

(** [String.prototype.toLowerCase] follows the Unicode case mappings of the
    engine; it is taken as an interface, of which only the behaviour on ASCII
    text is fixed. *)
Class StringLib : Type := {
  toLowerCase : jsstring -> jsstring;
  toLowerCase_ascii :
    forall s, forallb isAscii s = true -> toLowerCase s = map lowerChar s
}.

Fixpoint dropWhile (p : char -> bool) (s : jsstring) : jsstring :=
  match s with
  | [] => []
  | c :: s' => if p c then dropWhile p s' else s
  end.

Definition trim (s : jsstring) : jsstring :=
  rev (dropWhile isSpace (rev (dropWhile isSpace s))).

(** [s.split(sep)] for a one-unit separator. *)
Fixpoint split_on (sep : char) (s : jsstring) : list jsstring :=
  match s with
  | [] => [[]]
  | c :: s' =>
      if char_eqb c sep then [] :: split_on sep s'
      else match split_on sep s' with
           | [] => [[c]]
           | w :: ws => (c :: w) :: ws
           end
  end.

Definition newline : char := 10.
Definition split_lines (s : jsstring) : list jsstring := split_on newline s.

Fixpoint startsWith (p s : jsstring) : bool :=
  match p, s with
  | [], _ => true
  | x :: p', y :: s' => char_eqb x y && startsWith p' s'
  | _ :: _, [] => false
  end.

(** [s.includes(p)] *)
Fixpoint includes (s p : jsstring) : bool :=
  startsWith p s ||
  match s with
  | [] => false
  | _ :: s' => includes s' p
  end.

(** [s.replace(c, d)] with string arguments of one unit: first occurrence. *)
Fixpoint replace_first (c d : char) (s : jsstring) : jsstring :=
  match s with
  | [] => []
  | x :: s' => if char_eqb x c then d :: s' else x :: replace_first c d s'
  end.

(** [s.replace(/[...]/g, '')] *)
Definition remove_all (p : char -> bool) (s : jsstring) : jsstring :=
  filter (fun c => negb (p c)) s.

Definition digitVal (c : char) : N := (c - 48)%N.

Fixpoint digitsVal (acc : N) (ds : jsstring) : N :=
  match ds with
  | [] => acc
  | d :: ds' => digitsVal (acc * 10 + digitVal d)%N ds'
  end.

Fixpoint takeWhile (p : char -> bool) (s : jsstring) : jsstring :=
  match s with
  | [] => []
  | c :: s' => if p c then c :: takeWhile p s' else []
  end.

(** [n.toString()] for a natural number. *)
Definition N_toString (n : N) : jsstring :=
  js (NilZero.string_of_uint (N.to_uint n)).

Definition Z_toString (z : Z) : jsstring :=
  match z with
  | Zneg p => ch "-" :: N_toString (Npos p)
  | _ => N_toString (Z.to_N z)
  end.

(** [s.padStart(n, '0')] *)
Definition padStart0 (n : nat) (s : jsstring) : jsstring :=
  repeat (ch "0") (n - List.length s)%nat ++ s.

(** The binary64 number nearest to [n / 10^k], ties to even: the value of
    the decimal literal whose digits are those of [n], the last [k] of them
    after the point.  The quotient is taken with 54 bits or more, and the
    place of the remainder is handed to the rounding of [SpecFloat]. *)
Definition decimalToSF (n : N) (k : nat) : spec_float :=
  match n with
  | N0 => S754_zero false
  | Npos p =>
      let d := Z.pow 10 (Z.of_nat k) in
      let s := Z.max 0 (54 + Zdigits2 d - Zdigits2 (Zpos p)) in
      let '(q, r) := Z.div_eucl (Z.shiftl (Zpos p) s) d in
      binary_round_aux prec emax false q (- s) (new_location d r)
  end.

Definition decimalToDouble (n : N) (k : nat) : float := SF2Prim (decimalToSF n k).

(** [parseFloat] on an unsigned decimal literal: the longest prefix of the
    shape digits, optional point, digits, with at least one digit, else
    [NaN].  Every caller below passes a string over digits, commas and
    points, so sign, exponent and [Infinity] do not occur. *)
Definition parseFloat (s : jsstring) : float :=
  let s := dropWhile isSpace s in
  let ip := takeWhile isDigit s in
  let rest := dropWhile isDigit s in
  let fp := match rest with
            | c :: r => if char_eqb c (ch ".") then takeWhile isDigit r else []
            | [] => []
            end in
  match ip, fp with
  | [], [] => nan
  | _, _ =>
      let scale := (10 ^ N.of_nat (List.length fp))%N in
      decimalToDouble (digitsVal 0 ip * scale + digitsVal 0 fp) (List.length fp)
  end.

(** [isNaN] *)
Definition isNaN (x : float) : bool := PrimFloat.is_nan x.

(** Truthiness of a number: [NaN], [0] and [-0] are falsy. *)
Definition truthyFloat (x : float) : bool :=
  (negb (isNaN x) && negb (PrimFloat.eqb x 0%float))%bool.

(** Truthiness of a nullable number: [null] is falsy as well. *)
Definition truthyNum (o : option float) : bool :=
  match o with
  | None => false
  | Some x => truthyFloat x
  end.

(** [a || b] on nullable numbers. *)
Definition orNum (a b : option float) : option float :=
  if truthyNum a then a else b.

(** Truthiness of a nullable number given by its exact value. *)
Definition truthyRat (o : option Q) : bool :=
  match o with
  | None => false
  | Some q => negb (Qeq_bool q 0%Q)
  end.

(** Truthiness of a nullable string: [null] and [''] are falsy. *)
Definition truthyStr (o : option jsstring) : bool :=
  match o with
  | None | Some [] => false
  | Some _ => true
  end.

(** [Math.round]: nearest integer, halves towards plus infinity. *)
Definition Math_round (q : Q) : Z := Qfloor (q + (1 # 2))%Q.

(** [Math.min] *)
Definition Math_min (a b : Q) : Q := if Qle_bool a b then a else b.

End JS.

(* ================================================================== *)
(** * Regular expressions                                               *)
(* ================================================================== *)

(** A backtracking matcher with the priorities of the JavaScript one:
    alternatives left to right, greedy repetition, an iteration of a star
    that consumes nothing is rejected.  One capture group is recorded. *)

Module Regex.
Import JS.

Inductive regex : Type :=
| Eps
| Chr (p : char -> bool)
| Seq (a b : regex)
| Alt (a b : regex)
| Star (a : regex)
| Bol
| Eol
| Grp (a : regex).

Definition cap := option (nat * nat).

(** A continuation receives the position reached, the rest of the input
    and the capture. *)
Definition kont (R : Type) := nat -> jsstring -> cap -> option R.

Fixpoint star_loop (R : Type) (ma : kont R -> kont R) (fuel : nat)
  (k : kont R) : kont R :=
  fun pos s c =>
    match fuel with
    | O => k pos s c
    | S f =>
        match ma (fun pos' s' c' =>
                    if Nat.eqb pos' pos then None
                    else star_loop ma f k pos' s' c') pos s c with
        | Some r => Some r
        | None => k pos s c
        end
    end.

Fixpoint run (R : Type) (r : regex) (k : kont R) : kont R :=
  match r with
  | Eps => k
  | Chr p => fun pos s c =>
      match s with
      | x :: s' => if p x then k (S pos) s' c else None
      | [] => None
      end
  | Seq a b => run a (run b k)
  | Alt a b => fun pos s c =>
      match run a k pos s c with
      | Some x => Some x
      | None => run b k pos s c
      end
  | Star a => fun pos s c => star_loop (run a) (S (List.length s)) k pos s c
  | Bol => fun pos s c => if Nat.eqb pos 0 then k pos s c else None
  | Eol => fun pos s c => match s with [] => k pos s c | _ :: _ => None end
  | Grp a => fun pos s c =>
      run a (fun pos' s' _ => k pos' s' (Some (pos, pos'))) pos s c
  end.

(** Match at one position: the end position and the capture. *)
Definition match_at (r : regex) (pos : nat) (s : jsstring) : option (nat * cap) :=
  run r (fun e _ c => Some (e, c)) pos s None.

(** Leftmost match at or after [pos]; [s] is the input from [pos] on. *)
Fixpoint search (r : regex) (pos : nat) (s : jsstring) : option (nat * nat * cap) :=
  match match_at r pos s with
  | Some (e, c) => Some (pos, e, c)
  | None =>
      match s with
      | [] => None
      | _ :: s' => search r (S pos) s'
      end
  end.

Definition substr (input : jsstring) (st e : nat) : jsstring :=
  firstn (e - st) (skipn st input).

(** [re.test(s)] for a regex without the g flag. *)
Definition test (r : regex) (s : jsstring) : bool :=
  match search r 0 s with Some _ => true | None => false end.

(** [s.match(re)] without the g flag: the match and group 1. *)
Definition exec (r : regex) (s : jsstring) : option (jsstring * option jsstring) :=
  match search r 0 s with
  | Some (st, e, c) =>
      Some (substr s st e,
            match c with
            | Some (a, b) => Some (substr s a b)
            | None => None
            end)
  | None => None
  end.

Fixpoint match_all (fuel : nat) (r : regex) (input : jsstring) (pos : nat)
  (s : jsstring) : list jsstring :=
  match fuel with
  | O => []
  | S f =>
      match search r pos s with
      | None => []
      | Some (st, e, _) =>
          substr input st e ::
          (if Nat.eqb e st then
             match skipn (e - pos) s with
             | [] => []
             | _ :: s' => match_all f r input (S e) s'
             end
           else match_all f r input e (skipn (e - pos) s))
      end
  end.

(** [s.match(re)] with the g flag: every match, left to right; the empty
    list stands for [null]. *)
Definition match_g (r : regex) (s : jsstring) : list jsstring :=
  match_all (S (List.length s)) r s 0 s.

(** ** Notation for writing the source's patterns *)

Fixpoint seqs (l : list regex) : regex :=
  match l with
  | [] => Eps
  | [r] => r
  | r :: l' => Seq r (seqs l')
  end.

Fixpoint alts (l : list regex) : regex :=
  match l with
  | [] => Chr (fun _ => false)
  | [r] => r
  | r :: l' => Alt r (alts l')
  end.

Definition plus (a : regex) : regex := Seq a (Star a).
Definition opt (a : regex) : regex := Alt a Eps.

Fixpoint times (n : nat) (a : regex) : regex :=
  match n with
  | O => Eps
  | S k => Seq a (times k a)
  end.

Fixpoint upto (n : nat) (a : regex) : regex :=
  match n with
  | O => Eps
  | S k => opt (Seq a (upto k a))
  end.

(** [a{lo,hi}] *)
Definition rep (lo hi : nat) (a : regex) : regex :=
  Seq (times lo a) (upto (hi - lo) a).

Definition one (c : char) : regex := Chr (char_eqb c).
(** One character under the i flag. *)
Definition onei (c : char) : regex := Chr (fun x => char_eqb (lowerChar x) (lowerChar c)).

(** A literal word, case sensitive / under the i flag. *)
Definition lit (s : string) : regex := seqs (map one (js s)).
Definition liti (s : string) : regex := seqs (map onei (js s)).

Definition anyOf (s : string) (c : char) : bool := existsb (char_eqb c) (js s).

Definition ws : regex := Chr isSpace.          (* \s *)
Definition dg : regex := Chr isDigit.          (* \d *)

End Regex.

(* ================================================================== *)
(** * Records of the persistence layer                                  *)
(* ================================================================== *)

Module Transaction.
Record t : Type := mk {
  id : Z;
  transaction_date : option JS.jsstring;
  description : option JS.jsstring;
  amount : float
}.
End Transaction.

Module Receipt.
Record t : Type := mk {
  id : Z;
  extracted_amount : option float;
  extracted_date : option JS.jsstring;
  extracted_merchant : option JS.jsstring
}.
End Receipt.

(** The part of moment.js the engine calls.  [parse_formats s] is
    [moment(s, ['MM/DD/YYYY', 'MM/DD/YY', 'M/D/YYYY', 'M/D/YY'])] and
    [parse_any s] is [moment(s)], each [None] when [isValid()] is false;
    [diff_days a b] is [a.diff(b, 'days')]. *)
Class MomentLib : Type := {
  moment : Type;
  parse_formats : JS.jsstring -> option moment;
  parse_any : JS.jsstring -> option moment;
  diff_days : moment -> moment -> Z
}.

(* ================================================================== *)
(** * The match-scoring engine (routes/matches.js)                      *)
(* ================================================================== *)

Module Matches.
Import JS.

Record MatchCandidate : Type := mkCandidate {
  transaction : Transaction.t;
  confidence : Z;
  reasons : list jsstring;
  amountDiff : float
}.

(** [ToNumber] of a nullable number: [null] counts as 0. *)
Definition toNumber (o : option float) : float :=
  match o with Some x => x | None => 0%float end.

(** The running [confidence] and [reasons] of one transaction. *)
Definition score : Type := (Q * list jsstring)%type.

(** [confidence += pts; reasons.push(why)] *)
Definition award (pts : Q) (why : jsstring) (st : score) : score :=
  ((fst st + pts)%Q, snd st ++ [why]).

(** [Math.abs(Math.abs(transaction.amount) - receipt.extracted_amount)] *)
Definition amountDiffOf (receipt : Receipt.t) (tx : Transaction.t) : float :=
  PrimFloat.abs (PrimFloat.abs (Transaction.amount tx)
                 - toNumber (Receipt.extracted_amount receipt))%float.

(** Amount matching (most important factor). *)
Definition amountMatching (diff : float) (st : score) : score :=
  if (diff =? 0)%float then award 60%Q (js "Exact amount match") st
  else if (diff <=? 1)%float then award 40%Q (js "Very close amount match") st
  else if (diff <=? 5)%float then award 20%Q (js "Close amount match") st
  else if (diff <=? 10)%float then award 10%Q (js "Approximate amount match") st
  else st.

Section Engine.
Context {M : MomentLib} {U : StringLib}.

(** Date matching. *)
Definition dateMatching (receipt : Receipt.t) (tx : Transaction.t) (st : score) : score :=
  match Receipt.extracted_date receipt, Transaction.transaction_date tx with
  | Some rd, Some td =>
      if (truthyStr (Some rd) && truthyStr (Some td))%bool then
        match parse_formats rd, parse_any td with
        | Some receiptDate, Some transactionDate =>
            let daysDiff := Z.abs (diff_days receiptDate transactionDate) in
            if (daysDiff =? 0)%Z then award 25%Q (js "Same date") st
            else if (daysDiff <=? 1)%Z then award 15%Q (js "Within 1 day") st
            else if (daysDiff <=? 3)%Z then award 5%Q (js "Within 3 days") st
            else st
        | _, _ => st
        end
      else st
  | _, _ => st
  end.

(** [s.split(/\s+/)]: [skipping] is true inside a run of white space. *)
Fixpoint split_ws (skipping : bool) (s : jsstring) : list jsstring :=
  match s with
  | [] => [[]]
  | c :: s' =>
      if isSpace c then
        if skipping then split_ws true s' else [] :: split_ws true s'
      else
        match split_ws false s' with
        | w :: ws => (c :: w) :: ws
        | [] => [[c]]
        end
  end.

Definition commonWords : list jsstring :=
  [js "llc"; js "inc"; js "corp"; js "ltd"; js "company"; js "co"].

(** [word.length > 2 && !['llc', ...].includes(word)] *)
Definition eligible (word : jsstring) : bool :=
  (Nat.ltb 2 (List.length word) && negb (existsb (str_eqb word) commonWords))%bool.

(** One turn of [merchantWords.forEach]: the pair is
    [(wordMatches, significantWordMatches)]. *)
Definition countWord (descriptionLower : jsstring) (counts : nat * nat)
  (word : jsstring) : nat * nat :=
  if eligible word then
    if includes descriptionLower word then
      (S (fst counts),
       if Nat.leb 5 (List.length word) then S (snd counts) else snd counts)
    else counts
  else counts.

Definition countWords (descriptionLower : jsstring) (merchantWords : list jsstring)
  : nat * nat :=
  fold_left (countWord descriptionLower) merchantWords (0, 0)%nat.

Definition ofNat (n : nat) : Q := inject_Z (Z.of_nat n).

(** [Math.min(baseMatchPercent + bonusPoints, 20)] *)
Definition totalMerchantPoints (wordMatches significantWordMatches eligibleWords : nat) : Q :=
  let baseMatchPercent := (ofNat wordMatches / ofNat eligibleWords * 15)%Q in
  let bonusPoints := (ofNat significantWordMatches * 5)%Q in
  Math_min (baseMatchPercent + bonusPoints)%Q 20%Q.

Definition merchantReason (wordMatches significantWordMatches : nat) : jsstring :=
  js "Merchant keywords match (" ++ N_toString (N.of_nat wordMatches)
  ++ js " words, " ++ N_toString (N.of_nat significantWordMatches)
  ++ js " significant)".

(** Merchant/description matching. *)
Definition merchantMatching (receipt : Receipt.t) (tx : Transaction.t) (st : score) : score :=
  match Receipt.extracted_merchant receipt, Transaction.description tx with
  | Some merchant, Some desc =>
      if (truthyStr (Some merchant) && truthyStr (Some desc))%bool then
        let merchantWords := split_ws false (toLowerCase merchant) in
        let descriptionLower := toLowerCase desc in
        let counts := countWords descriptionLower merchantWords in
        let wordMatches := fst counts in
        let significantWordMatches := snd counts in
        if Nat.ltb 0 wordMatches then
          award (totalMerchantPoints wordMatches significantWordMatches
                   (List.length (filter eligible merchantWords)))
                (merchantReason wordMatches significantWordMatches) st
        else st
      else st
  | _, _ => st
  end.

(** The score of one transaction before the inclusion test. *)
Definition rawScore (receipt : Receipt.t) (tx : Transaction.t) : score :=
  merchantMatching receipt tx
    (dateMatching receipt tx
       (amountMatching (amountDiffOf receipt tx) (0%Q, []))).

(** The body of [transactions.forEach]: what is pushed onto [matches]. *)
Definition scoreTransaction (receipt : Receipt.t) (tx : Transaction.t)
  : list MatchCandidate :=
  let st := rawScore receipt tx in
  if Qle_bool 10%Q (fst st) then
    [ {| transaction := tx;
         confidence := Math_round (fst st);
         reasons := snd st;
         amountDiff := amountDiffOf receipt tx |} ]
  else [].

(** [Array.prototype.sort(cmp)]: a stable sort (ECMAScript 2019); [cmp a b > 0]
    puts [a] after [b].  Insertion from the right end. *)
Fixpoint insert (A : Type) (cmp : A -> A -> Z) (x : A) (l : list A) : list A :=
  match l with
  | [] => [x]
  | y :: l' => if (0 <? cmp x y)%Z then y :: insert cmp x l' else x :: l
  end.

Definition array_sort (A : Type) (cmp : A -> A -> Z) (l : list A) : list A :=
  fold_right (insert cmp) [] l.

(** [(a, b) => b.confidence - a.confidence] *)
Definition byConfidenceDesc (a b : MatchCandidate) : Z :=
  (confidence b - confidence a)%Z.

Definition findPotentialMatches (receipt : Receipt.t)
  (transactions : list Transaction.t) : list MatchCandidate :=
  if (negb (truthyNum (Receipt.extracted_amount receipt))
      || Nat.eqb (List.length transactions) 0)%bool
  then []
  else array_sort byConfidenceDesc (flat_map (scoreTransaction receipt) transactions).

(** The [matches] array as [forEach] leaves it, before the sort. *)
Definition pushedMatches (receipt : Receipt.t) (transactions : list Transaction.t)
  : list MatchCandidate :=
  if (negb (truthyNum (Receipt.extracted_amount receipt))
      || Nat.eqb (List.length transactions) 0)%bool
  then [] else flat_map (scoreTransaction receipt) transactions.

End Engine.

(** Sorted from the largest key down. *)
Definition descending (A : Type) (key : A -> Z) (l : list A) : Prop :=
  StronglySorted (fun a b => (key b <= key a)%Z) l.

End Matches.

(* ================================================================== *)
(** * The auto-match policy                                             *)
(* ================================================================== *)

Module AutoMatch.
Import JS Matches.

Inductive match_status : Type := pending | confirmed | rejected | auto_matched.

(** The values bound by
    [INSERT OR REPLACE INTO matches (transaction_id, receipt_id,
     match_confidence, match_status, user_confirmed) VALUES (?, ?, ?, 'auto_matched', 0)]. *)
Record match_row : Type := mkRow {
  transaction_id : Z;
  receipt_id : Z;
  match_confidence : Z;
  status : match_status;
  user_confirmed : bool
}.

Definition autoMatchedRow (tid rid conf : Z) : match_row :=
  {| transaction_id := tid; receipt_id := rid; match_confidence := conf;
     status := auto_matched; user_confirmed := false |}.

(** What a query hands to its callback: an error or the rows. *)
Inductive db_result (A : Type) : Type :=
| DbError
| DbRows (rows : A).
Arguments DbError {A}.
Arguments DbRows {A} rows.

Section Policy.
Context {M : MomentLib} {U : StringLib}.

(** [triggerAutoMatchForReceipt] of the receipts route: the statements it
    runs, given what [db.get] and [db.all] return (log lines left out). *)
Definition triggerAutoMatchForReceipt (receiptId : Z)
  (got : db_result (option Receipt.t))
  (all : db_result (list Transaction.t)) : list match_row :=
  match got with
  | DbError | DbRows None => []
  | DbRows (Some receipt) =>
      match all with
      | DbError => []
      | DbRows transactions =>
          match findPotentialMatches receipt transactions with
          | bestMatch :: _ =>
              if (70 <=? confidence bestMatch)%Z then
                [autoMatchedRow (Transaction.id (transaction bestMatch)) receiptId
                   (confidence bestMatch)]
              else []
          | [] => []
          end
      end
  end.

(** [req.body.threshold || 70] *)
Definition confidenceThreshold (bodyThreshold : option Q) : Q :=
  match bodyThreshold with
  | Some threshold => if truthyRat bodyThreshold then threshold else 70%Q
  | None => 70%Q
  end.

(** One turn of [receipts.forEach] in [POST /auto-match]: the [stmt.run]
    it issues, if any. *)
Definition autoMatchReceipt (threshold : Q) (transactions : list Transaction.t)
  (receipt : Receipt.t) : list match_row :=
  match findPotentialMatches receipt transactions with
  | best :: _ =>
      if Qle_bool threshold (inject_Z (confidence best)) then
        [autoMatchedRow (Transaction.id (transaction best)) (Receipt.id receipt)
           (confidence best)]
      else []
  | [] => []
  end.


End Policy.

(** ** The prepared statement of the bulk route

    Calls made on one node-sqlite3 [Statement] are queued and carried out one
    at a time in the order they were made; the callback of a call runs when
    that call has completed, before the next call starts. *)

Inductive stmt_call : Type :=
| Run (params : match_row)
| Finalize.

Inductive http_response : Type :=
| Status500
| Json (matched totalReceipts : nat) (threshold : Q).

(** The variables the callbacks of the route close over. *)
Record route_state : Type := mkState {
  autoMatched : nat;
  sent : option http_response
}.

(** [(err) => { if (!err) { autoMatched++; } }] *)
Definition runCallback (err : bool) (st : route_state) : route_state :=
  if err then st
  else {| autoMatched := S (autoMatched st); sent := sent st |}.

(** The callback of [stmt.finalize]. *)
Definition finalizeCallback (totalReceipts : nat) (threshold : Q) (err : bool)
  (st : route_state) : route_state :=
  {| autoMatched := autoMatched st;
     sent := Some (if err then Status500
                   else Json (autoMatched st) totalReceipts threshold) |}.

Record machine : Type := mkMachine {
  queue : list stmt_call;                 (* calls made, not yet carried out *)
  completed : list (stmt_call * bool);    (* calls carried out, with their err *)
  vars : route_state
}.

(** The statement carries out the call at the head of its queue; [err] is
    what the database reports for it. *)
Definition complete (totalReceipts : nat) (threshold : Q) (err : bool)
  (m : machine) : machine :=
  match queue m with
  | [] => m
  | call :: rest =>
      {| queue := rest;
         completed := completed m ++ [(call, err)];
         vars := match call with
                 | Run _ => runCallback err (vars m)
                 | Finalize => finalizeCallback totalReceipts threshold err (vars m)
                 end |}
  end.

(** The machine after the database has reported [errs], one per call. *)
Definition completeAll (totalReceipts : nat) (threshold : Q) (errs : list bool)
  (m : machine) : machine :=
  fold_left (fun m err => complete totalReceipts threshold err m) errs m.

(** The state when the synchronous part of the handler returns: every
    [stmt.run] and the [stmt.finalize] have been made, none has completed. *)
Definition afterIssue (runs : list match_row) : machine :=
  {| queue := map Run runs ++ [Finalize];
     completed := [];
     vars := {| autoMatched := 0; sent := None |} |}.

Section Handler.
Context {M : MomentLib} {U : StringLib}.


End Handler.





End AutoMatch.

(* ================================================================== *)
(** * Field extraction (processReceiptOCR of the receipts route)        *)
(* ================================================================== *)

(** The part of [Date] the pipeline calls: [construct s] is [new Date(s)],
    [None] when [getTime()] is [NaN], else
    [(getFullYear(), getMonth(), getDate())]. *)
Class DateLib : Type := {
  construct : JS.jsstring -> option (Z * Z * Z)
}.

Module Receipts.
Import JS Regex.

Record AmountBreakdown : Type := mkBreakdown {
  subtotal : option float;
  tax : option float;
  total : option float;
  grandTotal : option float
}.

Record OcrResult : Type := mkResult {
  text : jsstring;
  extractedAmount : option float;
  extractedDate : option jsstring;
  extractedMerchant : option jsstring;
  amountBreakdown : AmountBreakdown
}.

Definition euro : char := 8364%N.
Definition pound : char := 163%N.
Definition yen : char := 165%N.

(** ** Character classes *)

(* [\$€£¥\s] *)
Definition currencyOrSpace (c : char) : bool :=
  (anyOf "$" c || char_eqb c euro || char_eqb c pound || char_eqb c yen
   || isSpace c)%bool.
(* [\s:$€£¥] *)
Definition labelGap (c : char) : bool :=
  (isSpace c || anyOf ":$" c || char_eqb c euro || char_eqb c pound
   || char_eqb c yen)%bool.
(* [0-9,] *)
Definition digitOrComma (c : char) : bool := (isDigit c || anyOf "," c)%bool.
(* [\s:] *)
Definition spaceOrColon (c : char) : bool := (isSpace c || anyOf ":" c)%bool.
(* [\/\-] *)
Definition slashOrDash (c : char) : bool := anyOf "/-" c.

(** ** Pattern fragments *)

(* ([0-9,]+\.?\d{0,2}) *)
Definition amountGroup : regex :=
  Grp (seqs [plus (Chr digitOrComma); opt (lit "."); rep 0 2 dg]).
(* ([0-9,]+\.?\d{2}) *)
Definition amountGroup2 : regex :=
  Grp (seqs [plus (Chr digitOrComma); opt (lit "."); times 2 dg]).
(* [a-z]+\s+\d{1,2},?\s+\d{4}   under the i flag *)
Definition writtenDate : regex :=
  seqs [plus (Chr isLetter); plus ws; rep 1 2 dg; opt (lit ","); plus ws; times 4 dg].
(* \d{1,2}[\/\-]\d{1,2}[\/\-]\d{2,4} *)
Definition numericDate : regex :=
  seqs [rep 1 2 dg; Chr slashOrDash; rep 1 2 dg; Chr slashOrDash; rep 2 4 dg].
(* word1\s*word2   under the i flag *)
Definition words (a b : string) : regex := seqs [liti a; Star ws; liti b].

(** ** Amounts *)

(** [parseAmount] *)
Definition parseAmount (amountStr : jsstring) : float :=
  let cleaned := remove_all currencyOrSpace amountStr in
  let cleaned :=
    (* /,\d{2}$/ *)
    if test (seqs [lit ","; dg; dg; Eol]) cleaned
    then replace_first (ch ",") (ch ".") cleaned
    else remove_all (char_eqb (ch ",")) cleaned in
  parseFloat cleaned.

(** [amount > 0 && amount < 50000] *)
Definition okAmount (a : float) : bool :=
  ((0 <? a)%float && (a <? 50000)%float)%bool.
(** [amount >= 0 && amount < 10000] *)
Definition okTax (a : float) : bool :=
  ((0 <=? a)%float && (a <? 10000)%float)%bool.
(** [amount > 1 && amount < 50000] *)
Definition okFlexible (a : float) : bool :=
  ((1 <? a)%float && (a <? 50000)%float)%bool.

(** [!isNaN(amount) && ok(amount)]: the amount, when the test passes. *)
Definition accept (ok : float -> bool) (amount : float) : option float :=
  if (negb (isNaN amount) && ok amount)%bool then Some amount else None.

(** [match.replace(/^[^0-9,]*/, '')] *)
Definition stripLabel (m : jsstring) : jsstring :=
  dropWhile (fun c => negb (digitOrComma c)) m.

(** The loop shared by the labelled strategies: the first match whose number
    is accepted. *)
Fixpoint firstAmount (ok : float -> bool) (matches : list jsstring) : option float :=
  match matches with
  | [] => None
  | m :: rest =>
      match accept ok (parseAmount (stripLabel m)) with
      | Some a => Some a
      | None => firstAmount ok rest
      end
  end.

Definition setTotal (b : AmountBreakdown) (v : option float) : AmountBreakdown :=
  match v with
  | Some a => {| subtotal := subtotal b; tax := tax b; total := Some a;
                 grandTotal := grandTotal b |}
  | None => b
  end.

Definition setGrandTotal (b : AmountBreakdown) (v : option float) : AmountBreakdown :=
  match v with
  | Some a => {| subtotal := subtotal b; tax := tax b; total := total b;
                 grandTotal := Some a |}
  | None => b
  end.

Definition setSubtotal (b : AmountBreakdown) (v : option float) : AmountBreakdown :=
  match v with
  | Some a => {| subtotal := Some a; tax := tax b; total := total b;
                 grandTotal := grandTotal b |}
  | None => b
  end.

Definition setTax (b : AmountBreakdown) (v : option float) : AmountBreakdown :=
  match v with
  | Some a => {| subtotal := subtotal b; tax := Some a; total := total b;
                 grandTotal := grandTotal b |}
  | None => b
  end.

(* /(?:payment|payment\s*amount|monthly\s*charge|service\s*charge|bill\s*amount
     |charge|amount|total\s*charges)(?:\s*USD\s*|\s*[\s:$€£¥]* )?([0-9,]+\.?\d{0,2})/gi
   (the blank before the closing parenthesis is not in the source) *)
Definition paymentRegex : regex :=
  seqs [alts [liti "payment"; words "payment" "amount"; words "monthly" "charge";
              words "service" "charge"; words "bill" "amount"; liti "charge";
              liti "amount"; words "total" "charges"];
        opt (alts [seqs [Star ws; liti "USD"; Star ws];
                   seqs [Star ws; Star (Chr labelGap)]]);
        amountGroup].

(* /(?:payment|total\s*charges|subtotal|total\s*tax)USD\s*([0-9,]+\.?\d{0,2})/gi *)
Definition usdRegex : regex :=
  seqs [alts [liti "payment"; words "total" "charges"; liti "subtotal";
              words "total" "tax"];
        liti "USD"; Star ws; amountGroup].

(* /^total\s*$/ *)
Definition totalLine : regex := seqs [Bol; lit "total"; Star ws; Eol].
(* /^\$([0-9,]+\.?\d{0,2})$/ *)
Definition dollarLine : regex := seqs [Bol; lit "$"; amountGroup; Eol].

(* /(?:grand\s*total|final\s*total|total\s*amount|amount\s*due)[\s:$€£¥]*([0-9,]+\.?\d{0,2})/gi *)
Definition grandTotalRegex : regex :=
  seqs [alts [words "grand" "total"; words "final" "total"; words "total" "amount";
              words "amount" "due"];
        Star (Chr labelGap); amountGroup].

(* /(?:^|\s|:)total[\s:$€£¥]*([0-9,]+\.?\d{0,2})/gi *)
Definition totalRegex : regex :=
  seqs [alts [Bol; ws; lit ":"]; liti "total"; Star (Chr labelGap); amountGroup].

(* /(?:sub\s*total|subtotal)[\s:$€£¥]*([0-9,]+\.?\d{0,2})/gi *)
Definition subtotalRegex : regex :=
  seqs [alts [words "sub" "total"; liti "subtotal"]; Star (Chr labelGap); amountGroup].

(* /(?:tax|vat|gst)[\s:$€£¥]*([0-9,]+\.?\d{0,2})/gi *)
Definition taxRegex : regex :=
  seqs [alts [liti "tax"; liti "vat"; liti "gst"]; Star (Chr labelGap); amountGroup].

(* /\$[\s]*([0-9,]+\.?\d{0,2})/g *)
Definition currencyRegex : regex := seqs [lit "$"; Star ws; amountGroup].

(* /^[\$]?([0-9,]+\.?\d{2})$/ *)
Definition standaloneAmount : regex := seqs [Bol; opt (lit "$"); amountGroup2; Eol].

(* /(?:balance\s*due|amount\s*owed|amount\s*payable|invoice\s*amount)[\s:$€£¥]*([0-9,]+\.?\d{0,2})/gi *)
Definition balanceRegex : regex :=
  seqs [alts [words "balance" "due"; words "amount" "owed"; words "amount" "payable";
              words "invoice" "amount"];
        Star (Chr labelGap); amountGroup].

(* /bill|invoice|charge|amount|payment/i *)
Definition billingSection : regex :=
  alts [liti "bill"; liti "invoice"; liti "charge"; liti "amount"; liti "payment"].

Section Amounts.
Context {U : StringLib}.

(** Strategy 2: ["Total"] on one line, the dollar amount on the next. *)
Fixpoint multiLineTotal (textLines : list jsstring) : option float :=
  match textLines with
  | cur :: ((next :: _) as rest) =>
      let currentLine := toLowerCase (trim cur) in
      let nextLine := trim next in
      let found :=
        if test totalLine currentLine then
          match exec dollarLine nextLine with
          | Some (_, Some g) => accept okAmount (parseAmount g)
          | _ => None
          end
        else None in
      match found with
      | Some a => Some a
      | None => multiLineTotal rest
      end
  | _ => None
  end.

(** [match.replace(/^\$\s*/, '')] *)
Definition stripDollar (m : jsstring) : jsstring :=
  match m with
  | c :: r => if char_eqb c (ch "$") then dropWhile isSpace r else m
  | [] => []
  end.

(** Strategy 7: the largest accepted amount that carries a dollar sign. *)
Definition largestCurrency (matches : list jsstring) : option float :=
  fold_left
    (fun bestFallbackAmount m =>
       match accept okAmount (parseAmount (stripDollar m)) with
       | Some amount =>
           if (negb (truthyNum bestFallbackAmount)
               || (Matches.toNumber bestFallbackAmount <? amount)%float)%bool
           then Some amount else bestFallbackAmount
       | None => bestFallbackAmount
       end)
    matches None.

(** Strategy 8: a line that is an amount and nothing else. *)
Fixpoint standaloneLine (lines : list jsstring) : option float :=
  match lines with
  | [] => None
  | line :: rest =>
      let found :=
        match exec standaloneAmount (trim line) with
        | Some (_, Some g) => accept okAmount (parseAmount g)
        | _ => None
        end in
      match found with
      | Some a => Some a
      | None => standaloneLine rest
      end
  end.

(** Strategy 10: the first amount at or after a line of the billing section. *)
Fixpoint flexibleAmount (foundInBillingSection : bool) (lines : list jsstring)
  : option float :=
  match lines with
  | [] => None
  | l :: rest =>
      let line := trim l in
      let inSection := (foundInBillingSection || test billingSection line)%bool in
      let found :=
        if inSection then
          match exec amountGroup2 line with
          | Some (_, Some g) => accept okFlexible (parseAmount g)
          | _ => None
          end
        else None in
      match found with
      | Some a => Some a
      | None => flexibleAmount inSection rest
      end
  end.

(** [!amountBreakdown.total && !amountBreakdown.grandTotal] *)
Definition noTotalYet (b : AmountBreakdown) : bool :=
  (negb (truthyNum (total b)) && negb (truthyNum (grandTotal b)))%bool.

Definition strategy1 (text : jsstring) (b : AmountBreakdown) : AmountBreakdown :=
  setTotal b (firstAmount okAmount (match_g paymentRegex text)).

Definition strategy1b (text : jsstring) (b : AmountBreakdown) : AmountBreakdown :=
  if negb (truthyNum (total b))
  then setTotal b (firstAmount okAmount (match_g usdRegex text)) else b.

Definition strategy2 (text : jsstring) (b : AmountBreakdown) : AmountBreakdown :=
  setTotal b (multiLineTotal (split_lines text)).

Definition strategy3 (text : jsstring) (b : AmountBreakdown) : AmountBreakdown :=
  setGrandTotal b (firstAmount okAmount (match_g grandTotalRegex text)).

Definition strategy4 (text : jsstring) (b : AmountBreakdown) : AmountBreakdown :=
  if (negb (truthyNum (grandTotal b)) && negb (truthyNum (total b)))%bool
  then setTotal b (firstAmount okAmount (match_g totalRegex text)) else b.

Definition strategy5 (text : jsstring) (b : AmountBreakdown) : AmountBreakdown :=
  setSubtotal b (firstAmount okAmount (match_g subtotalRegex text)).

Definition strategy6 (text : jsstring) (b : AmountBreakdown) : AmountBreakdown :=
  setTax b (firstAmount okTax (match_g taxRegex text)).

Definition strategy7 (text : jsstring) (b : AmountBreakdown) : AmountBreakdown :=
  if noTotalYet b then
    let best := largestCurrency (match_g currencyRegex text) in
    if truthyNum best then setTotal b best else b
  else b.

Definition strategy8 (text : jsstring) (b : AmountBreakdown) : AmountBreakdown :=
  if noTotalYet b then setTotal b (standaloneLine (split_lines text)) else b.

Definition strategy9 (text : jsstring) (b : AmountBreakdown) : AmountBreakdown :=
  if noTotalYet b
  then setTotal b (firstAmount okAmount (match_g balanceRegex text)) else b.

Definition strategy10 (text : jsstring) (b : AmountBreakdown) : AmountBreakdown :=
  if noTotalYet b then setTotal b (flexibleAmount false (split_lines text)) else b.

Definition emptyBreakdown : AmountBreakdown :=
  {| subtotal := None; tax := None; total := None; grandTotal := None |}.

(** The amount strategies, in the order of the source. *)
Definition extractAmounts (text : jsstring) : AmountBreakdown :=
  strategy10 text (strategy9 text (strategy8 text (strategy7 text
    (strategy6 text (strategy5 text (strategy4 text (strategy3 text
      (strategy2 text (strategy1b text (strategy1 text emptyBreakdown)))))))))).

(** [grandTotal || total || subtotal] *)
Definition mainAmount (b : AmountBreakdown) : option float :=
  orNum (orNum (grandTotal b) (total b)) (subtotal b).

End Amounts.

(** ** Dates *)

(* /(?:invoice\s*date|bill\s*date|date\s*paid)[\s:]*([a-z]+\s+\d{1,2},?\s+\d{4})/gi *)
Definition dateStrategy1 : regex :=
  seqs [alts [words "invoice" "date"; words "bill" "date"; words "date" "paid"];
        Star (Chr spaceOrColon); Grp writtenDate].
(* /date\s*paid\s*([a-z]+\s+\d{1,2},?\s+\d{4})/gi *)
Definition dateStrategy2 : regex :=
  seqs [words "date" "paid"; Star ws; Grp writtenDate].
(* /date\s+paid([a-z]+\s+\d{1,2},?\s+\d{4})/gi *)
Definition dateStrategy2b : regex :=
  seqs [liti "date"; plus ws; liti "paid"; Grp writtenDate].
(* /(?:invoice\s*date|bill\s*date|date)[\s:]*(\d{1,2}[\/\-]\d{1,2}[\/\-]\d{2,4})/gi *)
Definition dateStrategy3 : regex :=
  seqs [alts [words "invoice" "date"; words "bill" "date"; liti "date"];
        Star (Chr spaceOrColon); Grp numericDate].
(* /(?:due\s*date|payment\s*due)[\s:]*([a-z]+\s+\d{1,2},?\s+\d{4}|\d{1,2}[\/\-]\d{1,2}[\/\-]\d{2,4})/gi *)
Definition dateStrategy4 : regex :=
  seqs [alts [words "due" "date"; words "payment" "due"];
        Star (Chr spaceOrColon); Grp (alts [writtenDate; numericDate])].
(* /(\d{1,2}[\/\-]\d{1,2}[\/\-]\d{2,4})/g *)
Definition dateStrategy5 : regex := Grp numericDate.
(* /((?:january|february|march|april|may|june|july|august|september|october
      |november|december)\s+\d{1,2},?\s+\d{4})/gi *)
Definition dateStrategy6 : regex :=
  Grp (seqs [alts [liti "january"; liti "february"; liti "march"; liti "april";
                   liti "may"; liti "june"; liti "july"; liti "august";
                   liti "september"; liti "october"; liti "november";
                   liti "december"];
             plus ws; rep 1 2 dg; opt (lit ","); plus ws; times 4 dg]).

Definition dateStrategies : list regex :=
  [dateStrategy1; dateStrategy2; dateStrategy2b; dateStrategy3; dateStrategy4;
   dateStrategy5; dateStrategy6].

Section Dates.
Context {D : DateLib}.

(** [`${month}/${day}/${year}`] with month and day padded to two digits. *)
Definition formatDate (ymd : Z * Z * Z) : jsstring :=
  let '(year, monthIndex, day) := ymd in
  padStart0 2 (Z_toString (monthIndex + 1)) ++ js "/"
  ++ padStart0 2 (Z_toString day) ++ js "/" ++ Z_toString year.

(** One turn of [for (const fullMatch of dateMatches)]: the date it sets. *)
Definition dateOfMatch (fullMatch : jsstring) : option jsstring :=
  match exec (Grp numericDate) fullMatch with
  | Some (_, Some g) => Some g
  | _ =>
      match exec (Grp writtenDate) fullMatch with
      | Some (_, Some g) =>
          match construct g with
          | Some ymd => Some (formatDate ymd)
          | None => None
          end
      | _ => None
      end
  end.

(** The inner loop: [(extractedDate, dateSource)] of the first match that
    yields a date. *)
Fixpoint firstDate (dateMatches : list jsstring) : option (jsstring * jsstring) :=
  match dateMatches with
  | [] => None
  | fullMatch :: rest =>
      match dateOfMatch fullMatch with
      | Some d => Some (d, fullMatch)
      | None => firstDate rest
      end
  end.

(** The outer loop over the strategies. *)
Fixpoint extractDateWith (strategies : list regex) (text : jsstring)
  : option (jsstring * jsstring) :=
  match strategies with
  | [] => None
  | dateRegex :: rest =>
      match firstDate (match_g dateRegex text) with
      | Some (d, src) => if truthyStr (Some d) then Some (d, src)
                         else extractDateWith rest text
      | None => extractDateWith rest text
      end
  end.

Definition extractDate (text : jsstring) : option jsstring :=
  match extractDateWith dateStrategies text with
  | Some (d, _) => Some d
  | None => None
  end.

End Dates.

(** ** Merchant *)

(* [\d\s\-()] *)
Definition digitSpaceDashParen (c : char) : bool :=
  (isDigit c || isSpace c || anyOf "-()" c)%bool.

Definition excludePatterns : list regex :=
  [ (* /^page\s+\d+/i *)
    seqs [Bol; liti "page"; plus ws; plus dg];
    (* /^\d+$/ *)
    seqs [Bol; plus dg; Eol];
    (* /^[\d\s\-()]+$/ *)
    seqs [Bol; plus (Chr digitSpaceDashParen); Eol];
    (* /invoice|bill|receipt|statement/i *)
    alts [liti "invoice"; liti "bill"; liti "receipt"; liti "statement"];
    (* /total|subtotal|tax|amount|due/i *)
    alts [liti "total"; liti "subtotal"; liti "tax"; liti "amount"; liti "due"];
    (* /^(to|from|attn|attention)[:]/i *)
    seqs [Bol; alts [liti "to"; liti "from"; liti "attn"; liti "attention"]; lit ":"];
    (* /^(phone|tel|fax|email|address)/i *)
    seqs [Bol; alts [liti "phone"; liti "tel"; liti "fax"; liti "email"; liti "address"]];
    (* /^(thank you|thanks)/i *)
    seqs [Bol; alts [liti "thank you"; liti "thanks"]];
    (* /^\W+$/ *)
    seqs [Bol; plus (Chr (fun c => negb (isWordChar c))); Eol] ].

(* /^\d+[.,]\d+$/ *)
Definition justANumber : regex :=
  seqs [Bol; plus dg; Chr (anyOf ".,"); plus dg; Eol].

(* /LLC|Inc|Corp|Company|Co\.|Ltd|LTD|Construction|Services|Group/i *)
Definition companyIndicator : regex :=
  alts [liti "LLC"; liti "Inc"; liti "Corp"; liti "Company"; liti "Co.";
        liti "Ltd"; liti "LTD"; liti "Construction"; liti "Services"; liti "Group"].

(* /^[A-Z][a-z]/ *)
Definition properCapitalization : regex := seqs [Bol; Chr isUpper; Chr isLower].

Definition headerCandidate (line : jsstring) : bool :=
  (Nat.leb 3 (List.length line) && Nat.leb (List.length line) 60
   && negb (existsb (fun pattern => test pattern line) excludePatterns)
   && negb (test justANumber line))%bool.

(** Strategy 1: the loop over the first lines; [potentialMerchant] is the
    candidate kept so far. *)
Fixpoint headerScan (lines : list jsstring) (potentialMerchant : option jsstring)
  : option jsstring :=
  match lines with
  | [] => potentialMerchant
  | l :: rest =>
      let line := trim l in
      if headerCandidate line then
        if test companyIndicator line then Some line
        else if (test properCapitalization line
                 && negb (truthyStr potentialMerchant))%bool
             then headerScan rest (Some line)
             else headerScan rest potentialMerchant
      else headerScan rest potentialMerchant
  end.

(* /(?:bill\s*to|from|vendor)[\s:]*\n([^\n]+)/i *)
Definition billToRegex : regex :=
  seqs [alts [words "bill" "to"; liti "from"; liti "vendor"];
        Star (Chr spaceOrColon); one newline;
        Grp (plus (Chr (fun c => negb (char_eqb c newline))))].

(** Strategy 2 *)
Definition billToSection (text : jsstring) (potentialMerchant : option jsstring)
  : option jsstring :=
  if negb (truthyStr potentialMerchant) then
    match exec billToRegex text with
    | Some (_, Some g) =>
        if truthyStr (Some g) then
          let candidate := trim g in
          if (Nat.leb 3 (List.length candidate)
              && Nat.leb (List.length candidate) 60)%bool
          then Some candidate else potentialMerchant
        else potentialMerchant
    | _ => potentialMerchant
    end
  else potentialMerchant.

Definition servicePatterns : list regex :=
  [ (* /(?:service\s*provider|provided\s*by|from|vendor)[\s:]*([^\n]+)/gi *)
    seqs [alts [words "service" "provider"; words "provided" "by"; liti "from";
                liti "vendor"];
          Star (Chr spaceOrColon);
          Grp (plus (Chr (fun c => negb (char_eqb c newline))))];
    (* /(?:starlink|spacex)/gi *)
    alts [liti "starlink"; liti "spacex"];
    (* /(?:internet|satellite|connectivity)/gi *)
    alts [liti "internet"; liti "satellite"; liti "connectivity"];
    (* /(?:birdseye|surveillance)/gi *)
    alts [liti "birdseye"; liti "surveillance"] ].

Definition Starlink : jsstring := js "Starlink".
Definition Birdseye : jsstring := js "Birdseye Surveillance LLC".

(** The loop over the matches of one service pattern. *)
Fixpoint serviceOfMatches (serviceMatches : list jsstring) : option jsstring :=
  match serviceMatches with
  | [] => None
  | m :: rest =>
      if test (alts [liti "starlink"; liti "spacex"]) m then Some Starlink
      else if test (alts [liti "birdseye"; liti "surveillance"]) m then Some Birdseye
      else serviceOfMatches rest
  end.

Definition isKnownService (potentialMerchant : option jsstring) : bool :=
  match potentialMerchant with
  | Some m => (str_eqb m Starlink || str_eqb m Birdseye)%bool
  | None => false
  end.

Fixpoint serviceScan (patterns : list regex) (text : jsstring)
  (potentialMerchant : option jsstring) : option jsstring :=
  match patterns with
  | [] => potentialMerchant
  | pattern :: rest =>
      match match_g pattern text with
      | [] => serviceScan rest text potentialMerchant
      | serviceMatches =>
          let potentialMerchant :=
            match serviceOfMatches serviceMatches with
            | Some m => Some m
            | None => potentialMerchant
            end in
          if isKnownService potentialMerchant then potentialMerchant
          else serviceScan rest text potentialMerchant
      end
  end.

(** Strategy 3 *)
Definition serviceProvider (text : jsstring) (potentialMerchant : option jsstring)
  : option jsstring :=
  if (negb (truthyStr potentialMerchant)
      || match potentialMerchant with
         | Some m => includes m (js "Chasco")
         | None => false
         end)%bool
  then serviceScan servicePatterns text potentialMerchant
  else potentialMerchant.

Section Merchant.
Context {U : StringLib}.

(** Special handling for specific merchant patterns. *)
Definition knownVendor (text : jsstring) (potentialMerchant : option jsstring)
  : option jsstring :=
  if (includes (toLowerCase text) (js "birdseye")
      && includes (toLowerCase text) (js "surveillance"))%bool
  then Some Birdseye else potentialMerchant.

Definition extractMerchant (text : jsstring) : option jsstring :=
  let lines := filter (fun line => Nat.ltb 0 (List.length (trim line)))
                      (split_lines text) in
  let potentialMerchant := headerScan (firstn 8 lines) None in
  let potentialMerchant := billToSection text potentialMerchant in
  let potentialMerchant := serviceProvider text potentialMerchant in
  let potentialMerchant := knownVendor text potentialMerchant in
  (* potentialMerchant || null *)
  if truthyStr potentialMerchant then potentialMerchant else None.

End Merchant.

(** ** The whole function *)

Inductive mimeType : Type := ApplicationPdf | OtherImage.

Definition noTextPlaceholder : jsstring := js "No extractable text found in PDF".

(** The text the extraction works on.  For a PDF:
    [if (!extractedText || extractedText.trim().length < 10)] the text is
    replaced by the placeholder. *)
Definition sourceText (mime : mimeType) (recovered : jsstring) : jsstring :=
  match mime with
  | ApplicationPdf =>
      if (negb (truthyStr (Some recovered))
          || Nat.ltb (List.length (trim recovered)) 10)%bool
      then noTextPlaceholder else recovered
  | OtherImage => recovered
  end.

Section Pipeline.
Context {D : DateLib} {U : StringLib}.

Definition extractFields (extractedText : jsstring) : OcrResult :=
  let amountBreakdown := extractAmounts extractedText in
  {| text := extractedText;
     extractedAmount := mainAmount amountBreakdown;
     extractedDate := extractDate extractedText;
     extractedMerchant := extractMerchant extractedText;
     amountBreakdown := amountBreakdown |}.

(** [processReceiptOCR]: [recovered] is what [pdfParse] or
    [Tesseract.recognize] returned, [None] when it threw; the result is
    [None] when the function throws. *)
Definition processReceiptOCR (mime : mimeType) (recovered : option jsstring)
  : option OcrResult :=
  match recovered with
  | None => None
  | Some t => Some (extractFields (sourceText mime t))
  end.

End Pipeline.

End Receipts.

(* ================================================================== *)
(** * Reference instances of the library interfaces                     *)
(* ================================================================== *)

(** Small executable stand-ins for [Date] and moment, enough to run the
    functions above on well-formed inputs.  The theorems below hold for
    every instance of the interfaces. *)

Module Reference.
Import JS.

(** [toLowerCase] on the ASCII letters, other code units left as they are. *)
#[export] Instance asciiCase : StringLib :=
  {| toLowerCase := map lowerChar;
     toLowerCase_ascii := fun s _ => eq_refl |}.

Definition monthNames : list jsstring :=
  [js "jan"; js "feb"; js "mar"; js "apr"; js "may"; js "jun";
   js "jul"; js "aug"; js "sep"; js "oct"; js "nov"; js "dec"].

Fixpoint indexOf (w : jsstring) (l : list jsstring) (i : Z) : option Z :=
  match l with
  | [] => None
  | x :: l' => if str_eqb w x then Some i else indexOf w l' (i + 1)%Z
  end.

(** A word names a month when its first three letters do. *)
Definition monthOfWord (w : jsstring) : option Z :=
  indexOf (firstn 3 (map lowerChar w)) monthNames 0%Z.

Definition isLeap (y : Z) : bool :=
  ((y mod 4 =? 0) && (negb (y mod 100 =? 0) || (y mod 400 =? 0)))%Z%bool.

Definition daysInMonth (y monthIndex : Z) : Z :=
  match monthIndex with
  | 1 => if isLeap y then 29 else 28
  | 3 | 5 | 8 | 10 => 30
  | _ => 31
  end%Z.

(** Years 0..49 and 50..99 are read as 20xx and 19xx. *)
Definition expandYear (y : Z) : Z :=
  (if (0 <=? y) && (y <=? 49) then y + 2000
   else if (50 <=? y) && (y <=? 99) then y + 1900 else y)%Z%bool.

(** [new Date(s)] for [s] of the shape word, blanks, one or two digits,
    optional comma, blanks, four digits, read the way the legacy parser of
    the V8 engine reads it: a word that is not a month name is skipped; two
    numbers without a month name are month and day, the year being 1 (read
    as 2001); with a month name they are day and year, or year and day when
    the first is no day.  A day past the end of the month rolls over into
    the next month. *)
Definition writtenDateOf (s : jsstring) : option (Z * Z * Z) :=
  let word := takeWhile isLetter s in
  let r1 := dropWhile isSpace (dropWhile isLetter s) in
  let n1 := takeWhile isDigit r1 in
  let r2 := dropWhile isSpace
              (dropWhile (char_eqb (ch ",")) (dropWhile isDigit r1)) in
  let n2 := takeWhile isDigit r2 in
  match word, n1, n2, dropWhile isDigit r2 with
  | _ :: _, _ :: _, _ :: _, [] =>
      let a := Z.of_N (digitsVal 0 n1) in
      let b := Z.of_N (digitsVal 0 n2) in
      let isDay := ((1 <=? a) && (a <=? 31))%Z%bool in
      let '(year, m, day) :=
        match monthOfWord word with
        | None => (1, a - 1, b)%Z               (* month, day; the year defaults *)
        | Some m => if isDay then (b, m, a) else (a, m, b)
        end in
      let year := expandYear year in
      if ((0 <=? m) && (m <=? 11) && (1 <=? day) && (day <=? 31))%Z%bool then
        let dim := daysInMonth year m in
        if (day <=? dim)%Z then Some (year, m, day)
        else if (m =? 11)%Z then Some (year + 1, 0, day - dim)%Z
        else Some (year, m + 1, day - dim)%Z
      else None
  | _, _, _, _ => None
  end.

#[export] Instance v8Date : DateLib := {| construct := writtenDateOf |}.

(** Days since 1970-01-01 of a civil date (month 1..12). *)
Definition daysFromCivil (y m d : Z) : Z :=
  let y' := (if m <=? 2 then y - 1 else y)%Z in
  let era := (y' / 400)%Z in
  let yoe := (y' - era * 400)%Z in
  let mp := ((m + 9) mod 12)%Z in
  let doy := ((153 * mp + 2) / 5 + d - 1)%Z in
  let doe := (yoe * 365 + yoe / 4 - yoe / 100 + doy)%Z in
  (era * 146097 + doe - 719468)%Z.

Definition numberOf (ds : jsstring) : option Z :=
  match ds with
  | [] => None
  | _ => if forallb isDigit ds then Some (Z.of_N (digitsVal 0 ds)) else None
  end.

Definition validCivil (y m d : Z) : bool :=
  ((1 <=? m) && (m <=? 12) && (1 <=? d) && (d <=? daysInMonth y (m - 1)))%Z%bool.

(** At most [n] leading digits of [s], and what follows them. *)
Fixpoint upToDigits (n : nat) (s : jsstring) : jsstring * jsstring :=
  match n, s with
  | S n', c :: s' =>
      if isDigit c then let '(ds, r) := upToDigits n' s' in (c :: ds, r)
      else ([], s)
  | _, _ => ([], s)
  end.

(** A number token of a moment format read without the strict flag: the
    first run of at most [n] digits, wherever it starts. *)
Fixpoint firstDigits (n : nat) (s : jsstring) : option (jsstring * jsstring) :=
  match s with
  | [] => None
  | c :: s' => if isDigit c then Some (upToDigits n s) else firstDigits n s'
  end.

(** The token ['/'] of a format: the input up to the first slash is passed
    over; an input without a slash is left as it is. *)
Fixpoint afterSlash (s : jsstring) : option jsstring :=
  match s with
  | [] => None
  | c :: s' => if char_eqb c (ch "/") then Some s' else afterSlash s'
  end.

Definition skipSlash (s : jsstring) : jsstring :=
  match afterSlash s with Some r => r | None => s end.

(** [parseTwoDigitYear] of moment: up to 68 is 20xx, above is 19xx. *)
Definition parseTwoDigitYear (y : Z) : Z :=
  (y + (if 68 <? y then 1900 else 2000))%Z.

(** One format of the shape month, slash, day, slash, year; [yearDigits] is
    4 for [YYYY] and 2 for [YY].  [None] when the moment is not valid; an
    input that lacks one of the three numbers is left out as well (moment
    fills the gap from the clock). *)
Definition parseFormat (yearDigits : nat) (s : jsstring) : option Z :=
  match firstDigits 2 s with
  | Some (ms, r1) =>
      match firstDigits 2 (skipSlash r1) with
      | Some (ds, r2) =>
          match firstDigits yearDigits (skipSlash r2) with
          | Some (ys, _) =>
              let m := Z.of_N (digitsVal 0 ms) in
              let d := Z.of_N (digitsVal 0 ds) in
              let y := Z.of_N (digitsVal 0 ys) in
              let y := if (Nat.eqb yearDigits 2 || Nat.eqb (List.length ys) 2)%bool
                       then parseTwoDigitYear y else y in
              if validCivil y m d then Some (daysFromCivil y m d) else None
          | None => None
          end
      | None => None
      end
  | None => None
  end.

(** [moment(s, ['MM/DD/YYYY', 'MM/DD/YY', 'M/D/YYYY', 'M/D/YY'])]: without
    the strict flag the one-letter and two-letter tokens read alike, and
    of the formats that give a valid date the one that reads most of the
    input wins, the earlier on a tie: the four-digit year first. *)
Definition parseSlashed (s : jsstring) : option Z :=
  match parseFormat 4 s with
  | Some day => Some day
  | None => parseFormat 2 s
  end.

(** year-month-day, the form the ledger is stored in. *)
Definition parseIso (s : jsstring) : option Z :=
  match split_on (ch "-") s with
  | [ys; ms; ds] =>
      match numberOf ys, numberOf ms, numberOf ds with
      | Some y, Some m, Some d =>
          if validCivil y m d then Some (daysFromCivil y m d) else None
      | _, _, _ => None
      end
  | _ => None
  end.

(** Moments at local midnight, as day numbers. *)
#[export] Instance calendarMoment : MomentLib :=
  {| moment := Z;
     parse_formats := parseSlashed;
     parse_any := parseIso;
     diff_days := fun a b => (a - b)%Z |}.

End Reference.

(* ================================================================== *)
(** * The other handlers of the two routes                              *)
(* ================================================================== *)

Module MatchRoutes.
Import JS Matches AutoMatch.

(** What a handler answers. *)
Inductive reply (A : Type) : Type :=
| Http400
| Http404
| Http500
| Ok (body : A).
Arguments Http400 {A}.
Arguments Http404 {A}.
Arguments Http500 {A}.
Arguments Ok {A} body.

Section Find.
Context {M : MomentLib} {U : StringLib}.

(** [POST /find/:receiptId]: the receipt and [potentialMatches.slice(0, 10)]. *)
Definition findForReceipt (got : db_result (option Receipt.t))
  (all : db_result (list Transaction.t))
  : reply (Receipt.t * list MatchCandidate) :=
  match got with
  | DbError => Http500
  | DbRows None => Http404
  | DbRows (Some receipt) =>
      match all with
      | DbError => Http500
      | DbRows transactions =>
          Ok (receipt, firstn 10 (findPotentialMatches receipt transactions))
      end
  end.

End Find.

(** A row of the matches table with its [id]. *)
Record stored : Type := mkStored {
  match_id : Z;
  fields : match_row
}.

(** [!x] for an id of the request body: absent and 0 are falsy. *)
Definition missingId (x : option Z) : bool :=
  match x with
  | None => true
  | Some z => (z =? 0)%Z
  end.

(** The values [POST /] binds, or 400. *)
Definition createRow (transaction_id receipt_id match_confidence : option Z)
  (auto_confirm : bool) : reply match_row :=
  if (missingId transaction_id || missingId receipt_id)%bool then Http400
  else
    Ok {| transaction_id := match transaction_id with Some z => z | None => 0%Z end;
          receipt_id := match receipt_id with Some z => z | None => 0%Z end;
          (* match_confidence || 0 *)
          match_confidence := match match_confidence with Some c => c | None => 0%Z end;
          status := if auto_confirm then confirmed else pending;
          user_confirmed := auto_confirm |}.

Section Table.
(** The uniqueness constraints of the matches table are declared with the
    schema, outside these routes: [conflicts old new] tells whether the stored
    row [old] is replaced when [new] is inserted with [INSERT OR REPLACE]. *)
Variable conflicts : match_row -> match_row -> bool.

Definition insertOrReplace (lastID : Z) (row : match_row) (table : list stored)
  : list stored :=
  filter (fun s => negb (conflicts (fields s) row)) table
  ++ [ {| match_id := lastID; fields := row |} ].

(** [UPDATE matches SET user_confirmed = ?, match_status = ? WHERE id = ?] *)
Definition setDecision (id : Z) (flag : bool) (st : match_status)
  (table : list stored) : list stored :=
  map (fun s =>
         if (match_id s =? id)%Z then
           {| match_id := match_id s;
              fields := {| transaction_id := transaction_id (fields s);
                           receipt_id := receipt_id (fields s);
                           match_confidence := match_confidence (fields s);
                           status := st;
                           user_confirmed := flag |} |}
         else s) table.

(** [this.changes] of a statement with [WHERE id = ?]. *)
Definition changes (id : Z) (table : list stored) : nat :=
  List.length (filter (fun s => (match_id s =? id)%Z) table).

Inductive request : Type :=
| Create (transaction_id receipt_id match_confidence : option Z)
         (auto_confirm : bool) (lastID : Z)
| AutoMatched (row : match_row) (lastID : Z)    (* a run of the auto-match statement *)
| Confirm (id : Z)
| Reject (id : Z)
| Delete (id : Z).

(** One request carried out without a database error: the reply and the
    table afterwards.  The statement is run first; 404 is answered when it
    changed no row. *)
Definition handle (rq : request) (table : list stored) : reply unit * list stored :=
  match rq with
  | Create t r c auto lastID =>
      match createRow t r c auto with
      | Ok row => (Ok tt, insertOrReplace lastID row table)
      | _ => (Http400, table)
      end
  | AutoMatched row lastID => (Ok tt, insertOrReplace lastID row table)
  | Confirm id =>
      (if Nat.eqb (changes id table) 0 then Http404 else Ok tt,
       setDecision id true confirmed table)
  | Reject id =>
      (if Nat.eqb (changes id table) 0 then Http404 else Ok tt,
       setDecision id false rejected table)
  | Delete id =>
      (if Nat.eqb (changes id table) 0 then Http404 else Ok tt,
       filter (fun s => negb (match_id s =? id)%Z) table)
  end.

Definition handleAll (rqs : list request) (table : list stored) : list stored :=
  fold_left (fun tb rq => snd (handle rq tb)) rqs table.

End Table.

(** The flag and the status say the same thing. *)
Definition decided (row : match_row) : Prop :=
  user_confirmed row = true <-> status row = confirmed.

(** The requests whose rows come from these routes: an auto-match run
    carries a row built by [autoMatchedRow]. *)
Definition fromRoutes (rq : request) : Prop :=
  match rq with
  | AutoMatched row _ =>
      exists tid rid conf, row = autoMatchedRow tid rid conf
  | _ => True
  end.

End MatchRoutes.

Module ReceiptRoutes.
Import JS Matches AutoMatch Receipts.

Inductive processing_status : Type := processing | completed | failed.

(** The [UPDATE receipts] statement the upload handler runs after OCR. *)
Inductive receipt_write : Type :=
| StoreOcr (receiptId : Z) (ocr_text : jsstring) (extracted_amount : option float)
           (extracted_date extracted_merchant : option jsstring)
           (status : processing_status)
| SetStatus (receiptId : Z) (status : processing_status).

Record upload_effects : Type := mkEffects {
  write : receipt_write;
  autoMatchTriggered : bool
}.

(** The part of [POST /upload] after the receipt row is inserted: [ocr] is
    the result of [processReceiptOCR] ([None] when it threw) and [updateErr]
    tells whether the update of the row failed. *)
Definition afterOcr (receiptId : Z) (ocr : option OcrResult) (updateErr : bool)
  : upload_effects :=
  match ocr with
  | None => {| write := SetStatus receiptId failed; autoMatchTriggered := false |}
  | Some ocrResult =>
      {| write := StoreOcr receiptId (text ocrResult) (extractedAmount ocrResult)
                    (extractedDate ocrResult) (extractedMerchant ocrResult) completed;
         autoMatchTriggered :=
           (negb updateErr && truthyNum (extractedAmount ocrResult))%bool |}
  end.

Section Upload.
Context {M : MomentLib} {D : DateLib} {U : StringLib}.

(** The upserts an upload leads to: OCR, the update, and the auto-match it
    triggers; [got] and [transactions] are what the two queries of
    [triggerAutoMatchForReceipt] return. *)
Definition uploadAutoMatch (receiptId : Z) (mime : mimeType)
  (recovered : option jsstring) (updateErr : bool)
  (got : db_result (option Receipt.t))
  (transactions : db_result (list Transaction.t)) : list match_row :=
  if autoMatchTriggered
       (afterOcr receiptId (processReceiptOCR mime recovered) updateErr)
  then triggerAutoMatchForReceipt receiptId got transactions
  else [].

End Upload.

End ReceiptRoutes.

(* ================================================================== *)
(** * The import route (routes/transactions.js)                         *)
(* ================================================================== *)

(** The insert loop at the end of [POST /import]: one
    [INSERT OR IGNORE INTO transactions] per parsed row on a prepared
    statement, then [finalize].  The statement is the queue of the bulk
    auto-match route. *)
Module ImportRoute.

(** What the database reports for one insert: an error, a row inserted
    ([this.changes > 0]) or a duplicate ignored ([this.changes] is 0). *)
Inductive insert_outcome : Type := InsertError | Inserted | Ignored.

Inductive import_call : Type :=
| RunInsert
| FinalizeImport.

Inductive import_reply : Type :=
| ImportStatus500
| ImportJson (imported skipped total : nat).

Record import_state : Type := mkImport {
  importCount : nat;
  skipCount : nat;
  answered : option import_reply
}.

(** The callback of [stmt.run]. *)
Definition insertCallback (o : insert_outcome) (st : import_state) : import_state :=
  match o with
  | InsertError =>
      {| importCount := importCount st; skipCount := S (skipCount st);
         answered := answered st |}
  | Inserted =>
      {| importCount := S (importCount st); skipCount := skipCount st;
         answered := answered st |}
  | Ignored =>
      {| importCount := importCount st; skipCount := S (skipCount st);
         answered := answered st |}
  end.

(** The callback of [stmt.finalize]; [total] is [transactions.length]. *)
Definition finalizeImport (total : nat) (err : bool) (st : import_state)
  : import_state :=
  {| importCount := importCount st; skipCount := skipCount st;
     answered := Some (if err then ImportStatus500
                       else ImportJson (importCount st) (skipCount st) total) |}.

Record import_machine : Type := mkImportMachine {
  calls : list import_call;                 (* made, not yet carried out *)
  outcomes : list insert_outcome;           (* of the inserts carried out *)
  counters : import_state
}.

(** The statement carries out the call at the head of its queue; for the
    finalize only an error matters. *)
Definition carryOut (total : nat) (o : insert_outcome) (m : import_machine)
  : import_machine :=
  match calls m with
  | [] => m
  | RunInsert :: rest =>
      {| calls := rest; outcomes := outcomes m ++ [o];
         counters := insertCallback o (counters m) |}
  | FinalizeImport :: rest =>
      {| calls := rest; outcomes := outcomes m;
         counters := finalizeImport total
                       (match o with InsertError => true | _ => false end)
                       (counters m) |}
  end.

Definition carryOutAll (total : nat) (os : list insert_outcome) (m : import_machine)
  : import_machine :=
  fold_left (fun m o => carryOut total o m) os m.

(** The state when the [end] handler of the CSV stream returns, for [total]
    parsed rows. *)
Definition afterInserts (total : nat) : import_machine :=
  {| calls := repeat RunInsert total ++ [FinalizeImport];
     outcomes := [];
     counters := {| importCount := 0; skipCount := 0; answered := None |} |}.

Definition isInserted (o : insert_outcome) : bool :=
  match o with Inserted => true | _ => false end.

End ImportRoute.

(* ================================================================== *)
(** * Sample inputs                                                     *)
(* ================================================================== *)

Module Samples.
Import JS.

Definition openaiReceipt : Receipt.t :=
  Receipt.mk 1 (Some 100%float) (Some (js "07/22/2025")) (Some (js "OpenAI")).

Definition openaiCharge : Transaction.t :=
  Transaction.mk 10 (Some (js "2025-07-22")) (Some (js "OPENAI *CHATGPT SUBSCR"))
    (-100)%float.

Definition groceryCharge : Transaction.t :=
  Transaction.mk 11 (Some (js "2025-07-20")) (Some (js "CORNER GROCERY")) (-95)%float.

Definition lunchCharge : Transaction.t :=
  Transaction.mk 12 (Some (js "2025-03-01")) (Some (js "LUNCH")) (-95)%float.

End Samples.

Module Texts.
Import JS.

Definition nl : string := String (ascii_of_nat 10) EmptyString.

(** ["Total\n$4,763.00\n"] *)
Definition totalBlock : jsstring :=
  js ("Total" ++ nl ++ "$4,763.00" ++ nl).

(** The block followed by a flat label. *)
Definition blockThenFlatTotal : jsstring :=
  totalBlock ++ js ("TOTAL: 12.50" ++ nl).

(** A payment label, which strategy 1 reads, followed by the block. *)
Definition paymentThenBlock : jsstring :=
  js ("Payment 12.50" ++ nl) ++ totalBlock.

Definition datePaid : jsstring := js "Date paidJuly 22, 2025".
Definition july22 : jsstring := js "July 22, 2025".
Definition paidJuly22 : jsstring := js "paidJuly 22, 2025".

End Texts.

(* ================================================================== *)
(** * Order facts of binary64 numbers                                   *)
(* ================================================================== *)

Module Binary64.

Local Open Scope float_scope.

Lemma SFcompare_antisym (a b : spec_float) :
  SFcompare b a = option_map CompOpp (SFcompare a b).
Proof.
  destruct a as [sa|sa| |sa ma ea], b as [sb|sb| |sb mb eb]; simpl;
    try destruct sa; try destruct sb; try reflexivity;
    rewrite (Z.compare_antisym ea eb);
    destruct (Z.compare ea eb); simpl; try reflexivity;
    fold (Pos.compare ma mb); fold (Pos.compare mb ma);
    rewrite (Pos.compare_antisym ma mb); try reflexivity.
Qed.

Lemma SFcompare_refl (a : spec_float) :
  a <> S754_nan -> SFcompare a a = Some Eq.
Proof.
  destruct a as [s|s| |s m e]; simpl; intros H; try congruence;
    destruct s; try reflexivity;
    rewrite Z.compare_refl; fold (Pos.compare m m); now rewrite Pos.compare_refl.
Qed.

Ltac by_order_cases ma mb mc ea eb ec :=
  fold (Pos.compare ma mb); fold (Pos.compare mb mc); fold (Pos.compare ma mc);
  destruct (Z.compare_spec ea eb), (Z.compare_spec eb ec), (Z.compare_spec ea ec);
  try discriminate; try reflexivity; try lia; subst;
  destruct (Pos.compare_spec ma mb), (Pos.compare_spec mb mc), (Pos.compare_spec ma mc);
  simpl; try discriminate; try reflexivity; try lia.

Lemma SFleb_trans (a b c : spec_float) :
  SFleb a b = true -> SFleb b c = true -> SFleb a c = true.
Proof.
  unfold SFleb.
  destruct a as [sa|sa| |sa ma ea], b as [sb|sb| |sb mb eb], c as [sc|sc| |sc mc ec];
    simpl; try destruct sa; try destruct sb; try destruct sc;
    try discriminate; try reflexivity; by_order_cases ma mb mc ea eb ec.
Qed.

Lemma SFltb_trans (a b c : spec_float) :
  SFltb a b = true -> SFltb b c = true -> SFltb a c = true.
Proof.
  unfold SFltb.
  destruct a as [sa|sa| |sa ma ea], b as [sb|sb| |sb mb eb], c as [sc|sc| |sc mc ec];
    simpl; try destruct sa; try destruct sb; try destruct sc;
    try discriminate; try reflexivity; by_order_cases ma mb mc ea eb ec.
Qed.

Lemma leb_trans (x y z : float) :
  (x <=? y) = true -> (y <=? z) = true -> (x <=? z) = true.
Proof. rewrite !FloatAxioms.leb_spec. apply SFleb_trans. Qed.

Lemma ltb_trans (x y z : float) :
  (x <? y) = true -> (y <? z) = true -> (x <? z) = true.
Proof. rewrite !FloatAxioms.ltb_spec. apply SFltb_trans. Qed.

Lemma ltb_leb (x y : float) : (x <? y) = true -> (x <=? y) = true.
Proof.
  rewrite FloatAxioms.ltb_spec, FloatAxioms.leb_spec. unfold SFltb, SFleb.
  now destruct (SFcompare (Prim2SF x) (Prim2SF y)) as [[]|].
Qed.

Lemma eqb_leb (x y : float) : (x =? y) = true -> (x <=? y) = true.
Proof.
  rewrite FloatAxioms.eqb_spec, FloatAxioms.leb_spec. unfold SFeqb, SFleb.
  now destruct (SFcompare (Prim2SF x) (Prim2SF y)) as [[]|].
Qed.


Lemma ltb_not_eqb (x y : float) : (x <? y) = true -> (y =? x) = false.
Proof.
  rewrite FloatAxioms.ltb_spec, FloatAxioms.eqb_spec. unfold SFltb, SFeqb.
  rewrite (SFcompare_antisym (Prim2SF x) (Prim2SF y)).
  now destruct (SFcompare (Prim2SF x) (Prim2SF y)) as [[]|].
Qed.



(** What compares as smaller than a number is a number. *)
Lemma ltb_is_number (x y : float) : (x <? y) = true -> is_nan y = false.
Proof.
  unfold is_nan. rewrite FloatAxioms.ltb_spec, FloatAxioms.eqb_spec.
  unfold SFltb, SFeqb. intros H.
  rewrite SFcompare_refl; [reflexivity|].
  intros E. rewrite E in H. now destruct (Prim2SF x).
Qed.

Lemma abs_opp (x : float) : abs (- x) = abs x.
Proof.
  apply Prim2SF_inj. rewrite !FloatAxioms.abs_spec, FloatAxioms.opp_spec.
  now destruct (Prim2SF x).
Qed.

Lemma abs_leb_zero (x : float) : (abs x <=? 0) = true -> (abs x =? 0) = true.
Proof.
  rewrite FloatAxioms.leb_spec, FloatAxioms.eqb_spec, FloatAxioms.abs_spec.
  unfold SFleb, SFeqb. change (Prim2SF 0) with (S754_zero false).
  now destruct (Prim2SF x) as [s|s| |s m e].
Qed.

End Binary64.

(* ================================================================== *)
(** * Properties of the match-scoring engine                            *)
(* ================================================================== *)


Section SortFacts.
Import Matches.
Variable A : Type.
Variable key : A -> Z.

(** The comparator [(a, b) => key(b) - key(a)]. *)
Let cmp (a b : A) : Z := (key b - key a)%Z.

Lemma insert_perm (x : A) (l : list A) : Permutation (insert cmp x l) (x :: l).
Proof.
  induction l as [|y l IH]; simpl.
  - apply Permutation_refl.
  - destruct (0 <? cmp x y)%Z.
    + eapply perm_trans; [apply perm_skip, IH | apply perm_swap].
    + apply Permutation_refl.
Qed.

Lemma array_sort_perm (l : list A) : Permutation (array_sort cmp l) l.
Proof.
  induction l as [|x l IH]; simpl.
  - constructor.
  - eapply perm_trans; [apply insert_perm | now apply perm_skip].
Qed.

Lemma insert_descending (x : A) (l : list A) :
  descending key l -> descending key (insert cmp x l).
Proof.
  unfold descending.
  induction l as [|y l IH]; intros Hs; simpl.
  - repeat constructor.
  - apply StronglySorted_inv in Hs as [Hl Hy].
    destruct (0 <? cmp x y)%Z eqn:E.
    + apply Z.ltb_lt in E. unfold cmp in E.
      constructor; [now apply IH|].
      apply Forall_forall. intros z Hz.
      apply (Permutation_in _ (insert_perm x l)) in Hz.
      destruct Hz as [<-|Hz]; [lia|].
      rewrite Forall_forall in Hy. now apply Hy.
    + apply Z.ltb_ge in E. unfold cmp in E.
      constructor; [now constructor|].
      constructor; [lia|].
      rewrite Forall_forall in Hy |- *. intros z Hz.
      specialize (Hy z Hz). lia.
Qed.

Lemma array_sort_descending (l : list A) : descending key (array_sort cmp l).
Proof.
  induction l as [|x l IH]; simpl.
  - constructor.
  - now apply insert_descending.
Qed.

(** Inserting leaves the elements of any one key in their order, the new
    element first among its equals. *)
Lemma insert_filter_key (c : Z) (x : A) (l : list A) :
  filter (fun a => (key a =? c)%Z) (insert cmp x l)
  = filter (fun a => (key a =? c)%Z) (x :: l).
Proof.
  induction l as [|y l IH]; simpl; [reflexivity|].
  destruct (0 <? cmp x y)%Z eqn:E; [|reflexivity].
  apply Z.ltb_lt in E. unfold cmp in E.
  simpl. simpl in IH. rewrite IH.
  destruct (key x =? c)%Z eqn:Ex, (key y =? c)%Z eqn:Ey; try reflexivity.
  apply Z.eqb_eq in Ex, Ey. lia.
Qed.

Lemma array_sort_stable (c : Z) (l : list A) :
  filter (fun a => (key a =? c)%Z) (array_sort cmp l)
  = filter (fun a => (key a =? c)%Z) l.
Proof.
  induction l as [|x l IH]; simpl; [reflexivity|].
  rewrite insert_filter_key. simpl. now rewrite IH.
Qed.

End SortFacts.

Section EngineFacts.
Import JS Matches.
Context {M : MomentLib} {U : StringLib}.

Lemma findPotentialMatches_sort (receipt : Receipt.t) (transactions : list Transaction.t) :
  findPotentialMatches receipt transactions
  = array_sort byConfidenceDesc (pushedMatches receipt transactions).
Proof.
  unfold findPotentialMatches, pushedMatches.
  destruct (negb (truthyNum (Receipt.extracted_amount receipt))
            || Nat.eqb (List.length transactions) 0)%bool; reflexivity.
Qed.

Lemma in_findPotentialMatches (receipt : Receipt.t) (transactions : list Transaction.t)
  (m : MatchCandidate) :
  In m (findPotentialMatches receipt transactions) ->
  exists tx, In tx transactions /\ In m (scoreTransaction receipt tx).
Proof.
  rewrite findPotentialMatches_sort. intros Hin.
  apply (Permutation_in _ (array_sort_perm confidence _)) in Hin.
  unfold pushedMatches in Hin.
  destruct (negb (truthyNum (Receipt.extracted_amount receipt))
            || Nat.eqb (List.length transactions) 0)%bool; [destruct Hin|].
  apply in_flat_map in Hin. exact Hin.
Qed.

Lemma scoreTransaction_inv (receipt : Receipt.t) (tx : Transaction.t) (m : MatchCandidate) :
  In m (scoreTransaction receipt tx) ->
  (10 <= fst (rawScore receipt tx))%Q
  /\ m = {| transaction := tx;
            confidence := Math_round (fst (rawScore receipt tx));
            reasons := snd (rawScore receipt tx);
            amountDiff := amountDiffOf receipt tx |}.
Proof.
  unfold scoreTransaction.
  destruct (Qle_bool 10 (fst (rawScore receipt tx))) eqn:E; simpl.
  - intros [<-|[]]. split; [now apply Qle_bool_iff | reflexivity].
  - intros [].
Qed.

Lemma findPotentialMatches_descending (receipt : Receipt.t)
  (transactions : list Transaction.t) :
  StronglySorted (fun a b => (confidence b <= confidence a)%Z)
    (findPotentialMatches receipt transactions).
Proof.
  rewrite findPotentialMatches_sort. apply (array_sort_descending confidence).
Qed.

(** C3.  A receipt whose extracted amount is null, and any receipt paired
    with an empty transaction list, gets the empty candidate list; the
    engine is a total function, so nothing is raised. *)
Theorem no_amount_or_no_transactions_no_candidates :
  forall (rid : Z) (date merchant : option jsstring) (receipt : Receipt.t)
         (transactions : list Transaction.t),
    findPotentialMatches (Receipt.mk rid None date merchant) transactions = []
    /\ findPotentialMatches receipt [] = [].
Proof.
  intros rid date merchant receipt transactions. split.
  - reflexivity.
  - unfold findPotentialMatches. simpl. now rewrite orb_true_r.
Qed.

(** C5.  The result is in descending order of confidence, and the candidates
    of any one confidence value stand in the order in which their
    transactions stood in the input. *)
Theorem candidates_sorted_descending_stable :
  forall (receipt : Receipt.t) (transactions : list Transaction.t),
    let result := findPotentialMatches receipt transactions in
    StronglySorted (fun a b => (confidence b <= confidence a)%Z) result
    /\ (forall c : Z,
          filter (fun m => (confidence m =? c)%Z) result
          = filter (fun m => (confidence m =? c)%Z)
                   (pushedMatches receipt transactions))
    /\ map transaction (pushedMatches receipt transactions)
       = filter (fun tx => match pushedMatches receipt [tx] with
                           | [] => false
                           | _ :: _ => true
                           end) transactions.
Proof.
  intros receipt transactions result. subst result.
  split; [apply findPotentialMatches_descending|].
  rewrite findPotentialMatches_sort. split.
  - intros c. apply (array_sort_stable confidence).
  - unfold pushedMatches.
    destruct (negb (truthyNum (Receipt.extracted_amount receipt))) eqn:Ea; simpl.
    + induction transactions as [|tx l IH]; simpl; [reflexivity|]. exact IH.
    + destruct transactions as [|tx0 l0]; [reflexivity|].
      cbn [List.length Nat.eqb].
      generalize (tx0 :: l0). intros l.
      induction l as [|tx l IH]; simpl; [reflexivity|].
      rewrite app_nil_r, map_app, IH.
      unfold scoreTransaction.
      destruct (Qle_bool 10 (fst (rawScore receipt tx))); reflexivity.
Qed.

End EngineFacts.

Section ScoreBounds.
Import JS Matches.
Context {M : MomentLib} {U : StringLib}.

Lemma Math_min_le_r (a b : Q) : (Math_min a b <= b)%Q.
Proof.
  unfold Math_min. destruct (Qle_bool a b) eqn:E.
  - now apply Qle_bool_iff.
  - apply Qle_refl.
Qed.

Lemma Math_min_lower (a b c : Q) : (c <= a)%Q -> (c <= b)%Q -> (c <= Math_min a b)%Q.
Proof. unfold Math_min. now destruct (Qle_bool a b). Qed.

Lemma Math_min_pos (a b : Q) : (0 < a)%Q -> (0 < b)%Q -> (0 < Math_min a b)%Q.
Proof. unfold Math_min. now destruct (Qle_bool a b). Qed.

Lemma ofNat_nonneg (n : nat) : (0 <= ofNat n)%Q.
Proof.
  unfold ofNat. change 0%Q with (inject_Z 0). rewrite <- Zle_Qle. lia.
Qed.

Lemma ofNat_pos (n : nat) : (1 <= n)%nat -> (0 < ofNat n)%Q.
Proof.
  intros H. unfold ofNat. change 0%Q with (inject_Z 0). rewrite <- Zlt_Qlt. lia.
Qed.

Lemma quotient_nonneg (a b : nat) : (0 <= ofNat a / ofNat b)%Q.
Proof.
  unfold Qdiv. apply Qmult_le_0_compat; [apply ofNat_nonneg|].
  apply Qinv_le_0_compat, ofNat_nonneg.
Qed.

Lemma totalMerchantPoints_range (wm sig den : nat) :
  (0 <= totalMerchantPoints wm sig den <= 20)%Q.
Proof.
  unfold totalMerchantPoints. split; [|apply Math_min_le_r].
  apply Math_min_lower; [|discriminate].
  pose proof (quotient_nonneg wm den). pose proof (ofNat_nonneg sig). lra.
Qed.

Lemma totalMerchantPoints_pos (wm sig den : nat) :
  (1 <= wm)%nat -> (1 <= den)%nat -> (0 < totalMerchantPoints wm sig den)%Q.
Proof.
  intros Hw Hd. unfold totalMerchantPoints.
  apply Math_min_pos; [|reflexivity].
  assert (0 < ofNat wm / ofNat den)%Q.
  { unfold Qdiv. apply Qmult_lt_0_compat; [now apply ofNat_pos|].
    apply Qinv_lt_0_compat. now apply ofNat_pos. }
  pose proof (ofNat_nonneg sig). lra.
Qed.

Lemma amountMatching_range (d : float) (st : score) :
  (fst st <= fst (amountMatching d st) <= fst st + 60)%Q.
Proof.
  unfold amountMatching, award.
  destruct (d =? 0)%float; [simpl; lra|].
  destruct (d <=? 1)%float; [simpl; lra|].
  destruct (d <=? 5)%float; [simpl; lra|].
  destruct (d <=? 10)%float; simpl; lra.
Qed.

Lemma dateMatching_range (receipt : Receipt.t) (tx : Transaction.t) (st : score) :
  (fst st <= fst (dateMatching receipt tx st) <= fst st + 25)%Q.
Proof.
  unfold dateMatching, award.
  destruct (Receipt.extracted_date receipt) as [rd|]; [|lra].
  destruct (Transaction.transaction_date tx) as [td|]; [|lra].
  destruct (truthyStr (Some rd) && truthyStr (Some td))%bool; [|lra].
  destruct (parse_formats rd); [|lra].
  destruct (parse_any td) as [m0|]; [|lra].
  destruct (Z.abs (diff_days m m0) =? 0)%Z; [simpl; lra|].
  destruct (Z.abs (diff_days m m0) <=? 1)%Z; [simpl; lra|].
  destruct (Z.abs (diff_days m m0) <=? 3)%Z; simpl; lra.
Qed.

Lemma merchantMatching_range (receipt : Receipt.t) (tx : Transaction.t) (st : score) :
  (fst st <= fst (merchantMatching receipt tx st) <= fst st + 20)%Q.
Proof.
  unfold merchantMatching, award.
  destruct (Receipt.extracted_merchant receipt) as [mr|]; [|lra].
  destruct (Transaction.description tx) as [ds|]; [|lra].
  destruct (truthyStr (Some mr) && truthyStr (Some ds))%bool; [|lra].
  match goal with |- context [Nat.ltb 0 ?w] => destruct (Nat.ltb 0 w) end; [|lra].
  cbn [fst snd].
  match goal with |- context [totalMerchantPoints ?a ?b ?c] =>
    pose proof (totalMerchantPoints_range a b c) end.
  lra.
Qed.

Lemma rawScore_range (receipt : Receipt.t) (tx : Transaction.t) :
  (0 <= fst (rawScore receipt tx) <= 105)%Q.
Proof.
  unfold rawScore.
  pose proof (amountMatching_range (amountDiffOf receipt tx) (0%Q, [])) as Ha.
  pose proof (dateMatching_range receipt tx
                (amountMatching (amountDiffOf receipt tx) (0%Q, []))) as Hd.
  pose proof (merchantMatching_range receipt tx
                (dateMatching receipt tx
                   (amountMatching (amountDiffOf receipt tx) (0%Q, [])))) as Hm.
  change (fst (0%Q, @nil jsstring)) with 0%Q in Ha. lra.
Qed.

Lemma Math_round_range (q : Q) (lo hi : Z) :
  (inject_Z lo <= q)%Q -> (q <= inject_Z hi)%Q -> (lo <= Math_round q <= hi)%Z.
Proof.
  intros Hlo Hhi. unfold Math_round. split.
  - rewrite <- (Qfloor_Z lo). apply Qfloor_resp_le. lra.
  - assert (Qfloor (q + (1 # 2)) < hi + 1)%Z as H; [|lia].
    rewrite Zlt_Qlt. pose proof (Qfloor_le (q + (1 # 2))) as Hf.
    rewrite inject_Z_plus. change (inject_Z 1) with 1%Q. lra.
Qed.

End ScoreBounds.


Section Unfolding.
Import JS Regex Receipts.
Context {U : StringLib}.

Lemma multiLineTotal_step (cur next : jsstring) (rest : list jsstring) :
  multiLineTotal (cur :: next :: rest)
  = match (if test totalLine (toLowerCase (trim cur))
           then match exec dollarLine (trim next) with
                | Some (_, Some g) => accept okAmount (parseAmount g)
                | _ => None
                end
           else None) with
    | Some a => Some a
    | None => multiLineTotal (next :: rest)
    end.
Proof. reflexivity. Qed.

End Unfolding.

(** ** ASCII text

    On ASCII text every instance of [toLowerCase] gives what the reference
    instance gives, so what is computed with the reference instance on such
    a text holds for all of them. *)

Section AsciiText.
Import JS Regex Matches Receipts.
Context {U : StringLib}.

Definition asciiField (o : option jsstring) : bool :=
  match o with
  | Some s => forallb isAscii s
  | None => true
  end.

Lemma forallb_dropWhile (p q : char -> bool) (s : jsstring) :
  forallb q s = true -> forallb q (dropWhile p s) = true.
Proof.
  induction s as [|c s IH]; [reflexivity|]. intros H. cbn [dropWhile].
  destruct (p c); [|exact H].
  apply IH. simpl in H. now apply andb_true_iff in H.
Qed.

Lemma forallb_rev_true (q : char -> bool) (s : jsstring) :
  forallb q s = true -> forallb q (rev s) = true.
Proof.
  intros H. apply forallb_forall. intros x Hx.
  apply in_rev in Hx. revert x Hx. now apply forallb_forall.
Qed.

Lemma trim_ascii (s : jsstring) :
  forallb isAscii s = true -> forallb isAscii (trim s) = true.
Proof.
  intros H. unfold trim.
  now apply forallb_rev_true, forallb_dropWhile, forallb_rev_true, forallb_dropWhile.
Qed.

Lemma split_on_ascii (sep : char) (s : jsstring) :
  forallb isAscii s = true ->
  Forall (fun l => forallb isAscii l = true) (split_on sep s).
Proof.
  induction s as [|c s IH]; intros H.
  - repeat constructor.
  - simpl in H. apply andb_true_iff in H as [Hc Hs]. specialize (IH Hs).
    cbn [split_on]. destruct (char_eqb c sep).
    + constructor; [reflexivity|exact IH].
    + destruct (split_on sep s) as [|w ws].
      * repeat constructor. simpl. now rewrite Hc.
      * apply Forall_cons_iff in IH as [Hw Hws].
        constructor; [|exact Hws]. simpl. now rewrite Hc, Hw.
Qed.

Lemma multiLineTotal_ascii (textLines : list jsstring) :
  Forall (fun l => forallb isAscii l = true) textLines ->
  @multiLineTotal U textLines = @multiLineTotal Reference.asciiCase textLines.
Proof.
  induction textLines as [|cur rest IH]; [reflexivity|]. intros H.
  apply Forall_cons_iff in H as [Hcur Hrest]. specialize (IH Hrest).
  destruct rest as [|next rest']; [reflexivity|].
  rewrite (multiLineTotal_step cur next rest').
  rewrite (@multiLineTotal_step Reference.asciiCase cur next rest').
  rewrite (toLowerCase_ascii (trim cur) (trim_ascii cur Hcur)).
  change (@toLowerCase Reference.asciiCase (trim cur)) with (map lowerChar (trim cur)).
  now rewrite IH.
Qed.

Lemma extractAmounts_ascii (text : jsstring) :
  forallb isAscii text = true ->
  @extractAmounts U text = @extractAmounts Reference.asciiCase text.
Proof.
  intros H. unfold extractAmounts, strategy2.
  pose proof (multiLineTotal_ascii (split_on_ascii newline text H)) as E.
  fold (split_lines text) in E. now rewrite E.
Qed.

Lemma extractMerchant_ascii (text : jsstring) :
  forallb isAscii text = true ->
  @extractMerchant U text = @extractMerchant Reference.asciiCase text.
Proof.
  intros H. unfold extractMerchant, knownVendor.
  now rewrite (toLowerCase_ascii text H).
Qed.

Section Engine.
Context {M : MomentLib}.

Lemma merchantMatching_ascii (receipt : Receipt.t) (tx : Transaction.t) (st : score) :
  asciiField (Receipt.extracted_merchant receipt) = true ->
  asciiField (Transaction.description tx) = true ->
  @merchantMatching U receipt tx st
  = @merchantMatching Reference.asciiCase receipt tx st.
Proof.
  unfold merchantMatching, asciiField.
  destruct (Receipt.extracted_merchant receipt) as [mr|]; [|reflexivity].
  destruct (Transaction.description tx) as [ds|]; [|reflexivity].
  intros Hm Hd.
  now rewrite (toLowerCase_ascii mr Hm), (toLowerCase_ascii ds Hd).
Qed.

Lemma findPotentialMatches_ascii (receipt : Receipt.t)
  (transactions : list Transaction.t) :
  asciiField (Receipt.extracted_merchant receipt) = true ->
  forallb (fun tx => asciiField (Transaction.description tx)) transactions = true ->
  @findPotentialMatches M U receipt transactions
  = @findPotentialMatches M Reference.asciiCase receipt transactions.
Proof.
  intros Hm Hd. unfold findPotentialMatches.
  destruct (negb (truthyNum (Receipt.extracted_amount receipt))
            || Nat.eqb (List.length transactions) 0)%bool; [reflexivity|].
  f_equal. induction transactions as [|tx l IH]; [reflexivity|].
  simpl in Hd. apply andb_true_iff in Hd as [Htx Hl].
  cbn [flat_map]. rewrite (IH Hl). f_equal.
  unfold scoreTransaction, rawScore.
  now rewrite !(merchantMatching_ascii receipt tx _ Hm Htx).
Qed.

End Engine.

End AsciiText.

Section Shifts.
Import JS Matches.
Context {M : MomentLib} {U : StringLib}.





End Shifts.

Section Claims_scoring.
Import JS Matches.


(** C4.  Every candidate has an integer confidence between 10 and 105; the
    merchant contribution is at most 20; and the engine does not clamp to
    100: the sample receipt scores 105 against its own charge. *)
Theorem confidence_between_10_and_105 :
  (forall (M : MomentLib) (U : StringLib) (receipt : Receipt.t)
          (transactions : list Transaction.t),
      Forall (fun m => (10 <= confidence m <= 105)%Z)
             (findPotentialMatches receipt transactions))
  /\ (forall wordMatches significantWordMatches eligibleWords : nat,
        (totalMerchantPoints wordMatches significantWordMatches eligibleWords <= 20)%Q)
  /\ (forall U : StringLib,
        map confidence
          (@findPotentialMatches Reference.calendarMoment U Samples.openaiReceipt
             [Samples.openaiCharge]) = [105%Z]).
Proof.
  split; [|split].
  - intros M U receipt transactions. apply Forall_forall. intros m Hin.
    apply in_findPotentialMatches in Hin as (tx & _ & Hin).
    apply scoreTransaction_inv in Hin as [H10 ->]. simpl.
    apply Math_round_range; [exact H10|].
    apply (rawScore_range receipt tx).
  - intros. apply (totalMerchantPoints_range wordMatches significantWordMatches eligibleWords).
  - intros U.
    rewrite (findPotentialMatches_ascii Samples.openaiReceipt [Samples.openaiCharge]
               eq_refl eq_refl).
    vm_compute. reflexivity.
Qed.

End Claims_scoring.

Section Claims_merchant.
Import JS Matches.

Lemma countWord_step (desc : jsstring) (counts : nat * nat) (word : jsstring) :
  let out := countWord desc counts word in
  let e := if eligible word then 1%nat else 0%nat in
  (fst counts <= fst out <= fst counts + e)%nat
  /\ (snd counts <= snd out)%nat
  /\ (snd out + fst counts <= fst out + snd counts)%nat.
Proof.
  cbv zeta. unfold countWord. destruct (eligible word); [|lia].
  destruct (includes desc word); [|lia].
  destruct (Nat.leb 5 (List.length word)); cbn [fst snd]; lia.
Qed.

Lemma countWords_from (desc : jsstring) (words : list jsstring) (counts : nat * nat) :
  let out := fold_left (countWord desc) words counts in
  (fst counts <= fst out <= fst counts + List.length (filter eligible words))%nat
  /\ (snd out + fst counts <= fst out + snd counts)%nat.
Proof.
  cbv zeta. revert counts. induction words as [|w words IH]; intros counts; simpl.
  - lia.
  - pose proof (countWord_step desc counts w) as Hs. cbv zeta in Hs.
    specialize (IH (countWord desc counts w)).
    destruct (eligible w); simpl; lia.
Qed.

(** C10.  Every counted word-match is an eligible token, so the count of
    eligible tokens (the divisor) is at least the count of word-matches;
    whenever merchant points are awarded the divisor is at least 1, the
    quotient is an ordinary number and the points lie in (0, 20]. *)
Theorem merchant_divisor_at_least_one :
  forall (M : MomentLib) (U : StringLib) (desc : jsstring)
         (merchantWords : list jsstring)
         (receipt : Receipt.t) (tx : Transaction.t) (st : score),
    let wordMatches := fst (countWords desc merchantWords) in
    let significant := snd (countWords desc merchantWords) in
    let divisor := List.length (filter eligible merchantWords) in
    (significant <= wordMatches <= divisor)%nat
    /\ ((0 < wordMatches)%nat ->
        (1 <= divisor)%nat /\ ~ (ofNat divisor == 0)%Q
        /\ (0 < totalMerchantPoints wordMatches significant divisor <= 20)%Q)
    /\ (merchantMatching receipt tx st = st
        \/ exists w s n : nat,
             (1 <= w <= n)%nat /\ (s <= w)%nat
             /\ merchantMatching receipt tx st
                = award (totalMerchantPoints w s n) (merchantReason w s) st).
Proof.
  intros M U desc merchantWords receipt tx st wordMatches significant divisor.
  pose proof (countWords_from desc merchantWords (0, 0)%nat) as H.
  cbv zeta in H. fold (countWords desc merchantWords) in H. cbn [fst snd] in H.
  split; [subst wordMatches significant divisor; lia|]. split.
  - intros Hpos.
    assert (Hd : (1 <= divisor)%nat) by (subst wordMatches divisor; lia).
    split; [exact Hd|]. split.
    + pose proof (ofNat_pos Hd). lra.
    + split; [now apply totalMerchantPoints_pos | apply totalMerchantPoints_range].
  - clear H. unfold merchantMatching.
    destruct (Receipt.extracted_merchant receipt) as [mr|]; [|now left].
    destruct (Transaction.description tx) as [ds|]; [|now left].
    destruct (truthyStr (Some mr) && truthyStr (Some ds))%bool; [|now left].
    set (ws := split_ws false (toLowerCase mr)).
    set (dl := toLowerCase ds).
    pose proof (countWords_from dl ws (0, 0)%nat) as H.
    cbv zeta in H. fold (countWords dl ws) in H. cbn [fst snd] in H.
    destruct (Nat.ltb 0 (fst (countWords dl ws))) eqn:E; [|now left].
    apply Nat.ltb_lt in E. right.
    exists (fst (countWords dl ws)), (snd (countWords dl ws)),
           (List.length (filter eligible ws)).
    repeat split; lia.
Qed.

End Claims_merchant.

(* ================================================================== *)
(** * Properties of the auto-match policy                               *)
(* ================================================================== *)

Section Claims_policy.
Import JS Matches AutoMatch.

(** C2.  On both paths the statement run for a receipt is decided by the
    top-ranked candidate alone: when its confidence reaches the threshold
    (70 on the single-receipt path, [threshold || 70] on the bulk path), one
    upsert is run, for that transaction and this receipt, with status
    auto_matched and user_confirmed false; when no candidate reaches the
    threshold nothing is run.  The functions are total: nothing is raised. *)
Theorem auto_match_upserts_top_candidate_at_threshold :
  forall (M : MomentLib) (U : StringLib) (receiptId : Z) (receipt : Receipt.t)
         (transactions : list Transaction.t) (bodyThreshold : option Q),
    let candidates := findPotentialMatches receipt transactions in
    let threshold := confidenceThreshold bodyThreshold in
    let single := triggerAutoMatchForReceipt receiptId (DbRows (Some receipt))
                    (DbRows transactions) in
    let bulk := autoMatchReceipt threshold transactions receipt in
    (forall best rest, candidates = best :: rest ->
       Forall (fun m => (confidence m <= confidence best)%Z) rest
       /\ ((70 <= confidence best)%Z ->
           single = [ {| transaction_id := Transaction.id (transaction best);
                         receipt_id := receiptId;
                         match_confidence := confidence best;
                         status := auto_matched;
                         user_confirmed := false |} ])
       /\ ((threshold <= inject_Z (confidence best))%Q ->
           bulk = [ {| transaction_id := Transaction.id (transaction best);
                       receipt_id := Receipt.id receipt;
                       match_confidence := confidence best;
                       status := auto_matched;
                       user_confirmed := false |} ]))
    /\ (Forall (fun m => (confidence m < 70)%Z) candidates -> single = [])
    /\ (Forall (fun m => (inject_Z (confidence m) < threshold)%Q) candidates ->
        bulk = [])
    /\ confidenceThreshold None = 70%Q
    /\ (forall q : Q, ~ (q == 0)%Q -> confidenceThreshold (Some q) = q).
Proof.
  intros M U receiptId receipt transactions bodyThreshold candidates threshold single bulk.
  subst single bulk. unfold triggerAutoMatchForReceipt, autoMatchReceipt.
  fold candidates. repeat split.
  - pose proof (findPotentialMatches_descending receipt transactions) as Hs.
    fold candidates in Hs. rewrite H in Hs.
    apply StronglySorted_inv in Hs as [_ Hs]. exact Hs.
  - intros H70. rewrite H. apply Z.leb_le in H70. now rewrite H70.
  - intros Hthr. rewrite H. apply Qle_bool_iff in Hthr. now rewrite Hthr.
  - intros Hall. destruct candidates as [|best rest]; [reflexivity|].
    apply Forall_inv in Hall. apply Z.leb_gt in Hall. now rewrite Hall.
  - intros Hall. destruct candidates as [|best rest]; [reflexivity|].
    apply Forall_inv in Hall.
    destruct (Qle_bool threshold (inject_Z (confidence best))) eqn:E; [|reflexivity].
    apply Qle_bool_iff in E. lra.
  - intros q Hq. unfold confidenceThreshold, truthyRat.
    destruct (Qeq_bool q 0) eqn:E; [|reflexivity].
    apply Qeq_bool_iff in E. contradiction.
Qed.

End Claims_policy.

Section Claims_statement_queue.
Import AutoMatch.
Variable totalReceipts : nat.
Variable threshold : Q.
Variable issued : nat.     (* the number of stmt.run calls made *)






End Claims_statement_queue.

Section Claims_bulk_route.
Import AutoMatch.



End Claims_bulk_route.

(* ================================================================== *)
(** * Properties of the field extraction                                *)
(* ================================================================== *)


Section Claims_amount.
Import JS Regex Receipts.
Context {U : StringLib}.

Lemma accept_ok (ok : float -> bool) (x v : float) :
  accept ok x = Some v -> ok v = true.
Proof.
  unfold accept. destruct (negb (isNaN x) && ok x)%bool eqn:E; [|discriminate].
  intros [= <-]. now apply andb_true_iff in E.
Qed.

Lemma multiLineTotal_ok (textLines : list jsstring) (v : float) :
  multiLineTotal textLines = Some v -> okAmount v = true.
Proof.
  induction textLines as [|cur rest IH]; [discriminate|].
  destruct rest as [|next rest']; [discriminate|].
  cbn [multiLineTotal].
  destruct (test totalLine (toLowerCase (trim cur))).
  - destruct (exec dollarLine (trim next)) as [[whole [g|]]|]; [|exact IH..].
    destruct (accept okAmount (parseAmount g)) as [a|] eqn:E; [|exact IH].
    intros [= <-]. exact (accept_ok _ _ E).
  - exact IH.
Qed.

Lemma okAmount_truthy (v : float) : okAmount v = true -> truthyNum (Some v) = true.
Proof.
  unfold okAmount, truthyNum, truthyFloat, isNaN. intros H.
  apply andb_true_iff in H as [H _].
  now rewrite (Binary64.ltb_is_number H), (Binary64.ltb_not_eqb H).
Qed.

(** Once [total] holds an accepted amount, strategies 3 to 10 leave it. *)
Lemma later_strategies_keep_total (text : jsstring) (b : AmountBreakdown) (v : float) :
  total b = Some v -> okAmount v = true ->
  total (strategy10 text (strategy9 text (strategy8 text (strategy7 text
    (strategy6 text (strategy5 text (strategy4 text (strategy3 text b))))))))
  = Some v.
Proof.
  intros Ht Hok. apply okAmount_truthy in Hok.
  assert (H3 : total (strategy3 text b) = Some v).
  { unfold strategy3, setGrandTotal.
    now destruct (firstAmount okAmount (match_g grandTotalRegex text)). }
  set (b3 := strategy3 text b) in *.
  assert (H4 : strategy4 text b3 = b3).
  { unfold strategy4. rewrite H3, Hok. now rewrite andb_false_r. }
  rewrite H4.
  assert (H5 : total (strategy5 text b3) = Some v).
  { unfold strategy5, setSubtotal.
    now destruct (firstAmount okAmount (match_g subtotalRegex text)). }
  set (b5 := strategy5 text b3) in *.
  assert (H6 : total (strategy6 text b5) = Some v).
  { unfold strategy6, setTax.
    now destruct (firstAmount okTax (match_g taxRegex text)). }
  set (b6 := strategy6 text b5) in *.
  assert (Hn : noTotalYet b6 = false).
  { unfold noTotalYet. now rewrite H6, Hok. }
  unfold strategy10, strategy9, strategy8, strategy7.
  now rewrite !Hn.
Qed.

Lemma multiLine_total_wins (text : jsstring) (v : float) :
  multiLineTotal (split_lines text) = Some v ->
  total (extractAmounts text) = Some v.
Proof.
  intros H. unfold extractAmounts.
  apply later_strategies_keep_total; [|exact (multiLineTotal_ok _ H)].
  unfold strategy2. now rewrite H.
Qed.

Lemma split_lines_totalBlock (rest : jsstring) :
  split_lines (Texts.totalBlock ++ rest)
  = js "Total" :: js "$4,763.00" :: split_lines rest.
Proof. reflexivity. Qed.

Lemma multiLineTotal_block (lines : list jsstring) :
  multiLineTotal (js "Total" :: js "$4,763.00" :: lines) = Some 4763%float.
Proof.
  rewrite multiLineTotal_step.
  rewrite (toLowerCase_ascii (trim (js "Total")) eq_refl).
  vm_compute. reflexivity.
Qed.

(** C7.  Strategy 2 runs whatever strategies 1 and 1b found and replaces the
    total they set; an amount it finds is the total of the breakdown at the
    end.  A text that starts with the block ["Total\n$4,763.00\n"] has total
    4763.00 whatever follows; followed by ["TOTAL: 12.50"] the extracted
    amount is 4763.00 although the flat label is matched too; and after
    ["Payment 12.50"], which strategy 1 takes as the total, the block still
    wins. *)
Theorem multi_line_total_overrides_flat_label :
  (forall (text : jsstring) (before : AmountBreakdown) (v : float),
      multiLineTotal (split_lines text) = Some v ->
      total (strategy2 text before) = Some v
      /\ total (extractAmounts text) = Some v)
  /\ (forall rest : jsstring,
        total (extractAmounts (Texts.totalBlock ++ rest)) = Some 4763%float)
  /\ mainAmount (extractAmounts Texts.blockThenFlatTotal) = Some 4763%float
  /\ In (js ("TOTAL: 12.50"))
        (map trim (match_g totalRegex Texts.blockThenFlatTotal))
  /\ total (strategy1b Texts.paymentThenBlock
              (strategy1 Texts.paymentThenBlock emptyBreakdown)) = Some 12.5%float
  /\ mainAmount (extractAmounts Texts.paymentThenBlock) = Some 4763%float.
Proof.
  split; [|split; [|split; [|split; [|split]]]].
  - intros text before v H. split; [|now apply multiLine_total_wins].
    unfold strategy2. now rewrite H.
  - intros rest. apply multiLine_total_wins.
    rewrite split_lines_totalBlock. apply multiLineTotal_block.
  - rewrite (extractAmounts_ascii Texts.blockThenFlatTotal eq_refl).
    vm_compute. reflexivity.
  - vm_compute. right. left. reflexivity.
  - vm_compute. reflexivity.
  - rewrite (extractAmounts_ascii Texts.paymentThenBlock eq_refl).
    vm_compute. reflexivity.
Qed.

End Claims_amount.

Section Claims_date.
Import JS Regex Receipts.

(** What the patterns find in ["Date paidJuly 22, 2025"]: the three
    labelled strategies match the whole text, the numeric ones nothing, the
    month-name strategy the written date. *)
Lemma datePaid_matches :
  map (fun r => match_g r Texts.datePaid) dateStrategies
  = [[Texts.datePaid]; [Texts.datePaid]; [Texts.datePaid]; []; []; []; [Texts.july22]].
Proof. vm_compute. reflexivity. Qed.

(** Inside the whole text the written-date pattern starts at ["paid"]. *)
Lemma datePaid_written :
  exec (Grp numericDate) Texts.datePaid = None
  /\ exec (Grp writtenDate) Texts.datePaid = Some (Texts.paidJuly22, Some Texts.paidJuly22)
  /\ exec (Grp numericDate) Texts.july22 = None
  /\ exec (Grp writtenDate) Texts.july22 = Some (Texts.july22, Some Texts.july22).
Proof. vm_compute. repeat split. Qed.

(** C8.  ["Date paidJuly 22, 2025"] yields the date ["07/22/2025"].  The
    labelled strategies match, but the written date they hand to [Date]
    starts with ["paid"]; when that conversion fails the match is dropped
    without an error and the month-name strategy supplies July 22, 2025,
    which is written out zero-padded. *)
Theorem date_paid_written_date_normalized :
  forall (D : DateLib),
    construct Texts.july22 = Some (2025, 6, 22)%Z ->
    construct Texts.paidJuly22 = None \/ construct Texts.paidJuly22 = Some (2025, 6, 22)%Z ->
    extractDate Texts.datePaid = Some (js "07/22/2025")
    /\ (construct Texts.paidJuly22 = None ->
        firstDate (match_g dateStrategy1 Texts.datePaid) = None
        /\ extractDateWith dateStrategies Texts.datePaid
           = Some (js "07/22/2025", Texts.july22)).
Proof.
  intros D Hjuly Hpaid.
  assert (H1 : match_g dateStrategy1 Texts.datePaid = [Texts.datePaid])
    by exact (f_equal (fun l => nth 0 l []) datePaid_matches).
  assert (H2 : match_g dateStrategy2 Texts.datePaid = [Texts.datePaid])
    by exact (f_equal (fun l => nth 1 l []) datePaid_matches).
  assert (H2b : match_g dateStrategy2b Texts.datePaid = [Texts.datePaid])
    by exact (f_equal (fun l => nth 2 l []) datePaid_matches).
  assert (H3 : match_g dateStrategy3 Texts.datePaid = [])
    by exact (f_equal (fun l => nth 3 l []) datePaid_matches).
  assert (H4 : match_g dateStrategy4 Texts.datePaid = [])
    by exact (f_equal (fun l => nth 4 l []) datePaid_matches).
  assert (H5 : match_g dateStrategy5 Texts.datePaid = [])
    by exact (f_equal (fun l => nth 5 l []) datePaid_matches).
  assert (H6 : match_g dateStrategy6 Texts.datePaid = [Texts.july22])
    by exact (f_equal (fun l => nth 6 l []) datePaid_matches).
  destruct datePaid_written as (Hn & Hw & Hnj & Hwj).
  assert (Hfull : dateOfMatch Texts.datePaid
                  = match construct Texts.paidJuly22 with
                    | Some ymd => Some (formatDate ymd)
                    | None => None
                    end).
  { unfold dateOfMatch. now rewrite Hn, Hw. }
  assert (Hjul : dateOfMatch Texts.july22 = Some (js "07/22/2025")).
  { unfold dateOfMatch. rewrite Hnj, Hwj, Hjuly. reflexivity. }
  split.
  - unfold extractDate, dateStrategies.
    destruct Hpaid as [Hp|Hp].
    + cbn [extractDateWith]. rewrite H1, H2, H2b, H3, H4, H5, H6.
      cbn [firstDate]. rewrite Hfull, Hp, Hjul. reflexivity.
    + cbn [extractDateWith]. rewrite H1.
      cbn [firstDate]. rewrite Hfull, Hp. reflexivity.
  - intros Hp. split.
    + rewrite H1. cbn [firstDate]. now rewrite Hfull, Hp.
    + unfold dateStrategies. cbn [extractDateWith].
      rewrite H1, H2, H2b, H3, H4, H5, H6.
      cbn [firstDate]. rewrite Hfull, Hp, Hjul. reflexivity.
Qed.

(** The reference [Date] meets both assumptions. *)
Lemma date_paid_written_date_normalized_witness :
  @extractDate Reference.v8Date Texts.datePaid = Some (js "07/22/2025")
  /\ (@construct Reference.v8Date Texts.paidJuly22 = None ->
      @firstDate Reference.v8Date (match_g dateStrategy1 Texts.datePaid) = None
      /\ @extractDateWith Reference.v8Date dateStrategies Texts.datePaid
         = Some (js "07/22/2025", Texts.july22)).
Proof.
  apply (@date_paid_written_date_normalized Reference.v8Date).
  - vm_compute. reflexivity.
  - left. vm_compute. reflexivity.
Defined.

End Claims_date.

Section Claims_no_text.
Import JS Regex Receipts.

Lemma placeholder_amounts (U : StringLib) :
  extractAmounts noTextPlaceholder = emptyBreakdown.
Proof.
  rewrite (extractAmounts_ascii noTextPlaceholder eq_refl). vm_compute. reflexivity.
Qed.

Lemma empty_text_amounts (U : StringLib) : extractAmounts [] = emptyBreakdown.
Proof. rewrite (extractAmounts_ascii [] eq_refl). vm_compute. reflexivity. Qed.

Lemma placeholder_no_date_match :
  map (fun r => match_g r noTextPlaceholder) dateStrategies
  = [[]; []; []; []; []; []; []].
Proof. vm_compute. reflexivity. Qed.

Lemma placeholder_merchant (U : StringLib) :
  extractMerchant noTextPlaceholder = Some noTextPlaceholder.
Proof.
  rewrite (extractMerchant_ascii noTextPlaceholder eq_refl). vm_compute. reflexivity.
Qed.

Lemma empty_text_merchant (U : StringLib) : extractMerchant [] = None.
Proof. rewrite (extractMerchant_ascii [] eq_refl). vm_compute. reflexivity. Qed.

Lemma placeholder_date (D : DateLib) : extractDate noTextPlaceholder = None.
Proof.
  pose proof placeholder_no_date_match as Hm.
  unfold extractDate, dateStrategies. cbn [extractDateWith].
  rewrite (f_equal (fun l => nth 0 l [[]]) Hm : match_g dateStrategy1 _ = []).
  rewrite (f_equal (fun l => nth 1 l [[]]) Hm : match_g dateStrategy2 _ = []).
  rewrite (f_equal (fun l => nth 2 l [[]]) Hm : match_g dateStrategy2b _ = []).
  rewrite (f_equal (fun l => nth 3 l [[]]) Hm : match_g dateStrategy3 _ = []).
  rewrite (f_equal (fun l => nth 4 l [[]]) Hm : match_g dateStrategy4 _ = []).
  rewrite (f_equal (fun l => nth 5 l [[]]) Hm : match_g dateStrategy5 _ = []).
  rewrite (f_equal (fun l => nth 6 l [[]]) Hm : match_g dateStrategy6 _ = []).
  reflexivity.
Qed.

Lemma empty_text_date (D : DateLib) : extractDate [] = None.
Proof. vm_compute. reflexivity. Qed.

(** C6.  What the function returns for a PDF whose text layer is empty: it
    does not throw, amount and date are null, and the merchant is the
    placeholder sentence that replaced the text, whose first line starts
    with a capital and a small letter.  The same holds for every recovered
    text of fewer than ten characters once trimmed.  For an image whose
    OCR text is empty all three fields are null. *)
Theorem pdf_without_text_gets_placeholder_merchant :
  forall (D : DateLib) (U : StringLib),
    processReceiptOCR ApplicationPdf (Some [])
    = Some {| text := noTextPlaceholder;
              extractedAmount := None;
              extractedDate := None;
              extractedMerchant := Some (js "No extractable text found in PDF");
              amountBreakdown := emptyBreakdown |}
    /\ (forall recovered : jsstring,
          (List.length (trim recovered) < 10)%nat ->
          processReceiptOCR ApplicationPdf (Some recovered)
          = processReceiptOCR ApplicationPdf (Some []))
    /\ processReceiptOCR OtherImage (Some [])
       = Some {| text := [];
                 extractedAmount := None;
                 extractedDate := None;
                 extractedMerchant := None;
                 amountBreakdown := emptyBreakdown |}.
Proof.
  intros D U. split; [|split].
  - unfold processReceiptOCR, sourceText, extractFields. cbn [truthyStr negb orb].
    rewrite placeholder_amounts, placeholder_merchant, placeholder_date.
    reflexivity.
  - intros recovered Hlen. unfold processReceiptOCR, sourceText.
    apply Nat.ltb_lt in Hlen. rewrite Hlen, orb_true_r. reflexivity.
  - unfold processReceiptOCR, sourceText, extractFields.
    rewrite empty_text_date, empty_text_amounts, empty_text_merchant. reflexivity.
Qed.

End Claims_no_text.

(* ================================================================== *)
(** * The embedding at work                                             *)
(* ================================================================== *)

Section Runs.
Import JS Regex Receipts.
Context {U : StringLib}.

(** A comma before two final digits is a decimal separator; other commas
    group thousands; the number is the double nearest to the literal. *)
Example parseAmount_separators :
  parseAmount (js "1.234,56") = decimalToDouble 1234 3
  /\ parseAmount (js "12,50") = 12.5%float
  /\ parseAmount (js "$4,763.00") = 4763%float
  /\ isNaN (parseAmount (js ",")) = true.
Proof. vm_compute. repeat split. Qed.

(** [parseFloat] gives the double nearest to the literal. *)
Example parseFloat_nearest_double :
  parseFloat (js "0.1") = 0x1.999999999999ap-4%float
  /\ parseFloat (js "2.14") = 0x1.11eb851eb851fp+1%float
  /\ parseFloat (js "1.14") = 0x1.23d70a3d70a3dp+0%float
  /\ parseFloat (js "202.55") = 0x1.951999999999ap+7%float
  /\ parseFloat (js "49999.99") = 0x1.869ffae147ae1p+15%float
  /\ parseFloat (js "9007199254740993") = 9007199254740992%float
  /\ isNaN (parseFloat (js ".")) = true.
Proof. vm_compute. repeat split. Qed.

(** The formats of the engine are read without the strict flag: other
    separators pass, two digits of a year are read with the pivot 68. *)
Example moment_formats_are_lenient :
  Reference.parseSlashed (js "7-22-2025") = Reference.parseSlashed (js "07/22/2025")
  /\ Reference.parseSlashed (js "07/22/25") = Reference.parseSlashed (js "07/22/2025")
  /\ Reference.parseSlashed (js "1/2/69") = Some (Reference.daysFromCivil 1969 1 2)
  /\ Reference.parseSlashed (js "13/01/2025") = None
  /\ map (fun m => (Matches.confidence m, Matches.reasons m))
         (@Matches.findPotentialMatches Reference.calendarMoment U
            (Receipt.mk 2 (Some 100%float) (Some (js "7-22-2025")) None)
            [Samples.openaiCharge])
     = [(85%Z, [js "Exact amount match"; js "Same date"])].
Proof.
  rewrite findPotentialMatches_ascii by reflexivity.
  vm_compute. repeat split.
Qed.

(** The payment label directly followed by the currency code. *)
Example payment_usd_total :
  total (extractAmounts (js "PaymentUSD 202.55")) = Some (decimalToDouble 20255 2).
Proof.
  rewrite (extractAmounts_ascii (js "PaymentUSD 202.55") eq_refl).
  vm_compute. reflexivity.
Qed.

(** Both vendor words anywhere in the text fix the merchant. *)
Example birdseye_merchant :
  extractMerchant (js ("Invoice 17" ++ Texts.nl ++ "Acme Tools" ++ Texts.nl
                       ++ "cameras by birdseye, video SURVEILLANCE"))
  = Some Birdseye.
Proof. rewrite extractMerchant_ascii by reflexivity. vm_compute. reflexivity. Qed.

(** A company indicator further down the header replaces a capitalized line. *)
Example header_prefers_company_indicator :
  extractMerchant (js ("Statement" ++ Texts.nl ++ "Acme Tools" ++ Texts.nl
                       ++ "Harbor Freight Services Inc" ++ Texts.nl))
  = Some (js "Harbor Freight Services Inc").
Proof. rewrite extractMerchant_ascii by reflexivity. vm_compute. reflexivity. Qed.

(** The sample receipt against three charges: the exact charge first, then
    the two charges of equal score in the order of the ledger. *)
Example ranking_keeps_ledger_order :
  map (fun m => (Transaction.id (Matches.transaction m), Matches.confidence m))
      (@Matches.findPotentialMatches Reference.calendarMoment U
         Samples.openaiReceipt
         [Samples.lunchCharge; Samples.groceryCharge; Samples.openaiCharge;
          Samples.lunchCharge])
  = [(10, 105); (11, 25); (12, 20); (12, 20)]%Z.
Proof. rewrite findPotentialMatches_ascii by reflexivity. vm_compute. reflexivity. Qed.

(** Three receipts' worth of upserts, the second failing: the response
    reports two. *)
Example finalize_reports_successes :
  let row := AutoMatch.autoMatchedRow 10 1 105 in
  AutoMatch.sent (AutoMatch.vars
    (AutoMatch.completeAll 3 70%Q [false; true; false; false]
       (AutoMatch.afterIssue [row; row; row])))
  = Some (AutoMatch.Json 2 3 70%Q).
Proof. vm_compute. reflexivity. Qed.

End Runs.

(* ================================================================== *)
(** * Further properties: amounts                                       *)
(* ================================================================== *)

Section More_amounts.
Import JS Regex Receipts.
Context {U : StringLib}.

(** Every field of the breakdown holds an accepted value. *)
Definition sane (b : AmountBreakdown) : Prop :=
  (forall v, total b = Some v -> okAmount v = true)
  /\ (forall v, grandTotal b = Some v -> okAmount v = true)
  /\ (forall v, subtotal b = Some v -> okAmount v = true)
  /\ (forall v, tax b = Some v -> okTax v = true).

Lemma firstAmount_ok (ok : float -> bool) (ms : list jsstring) (v : float) :
  firstAmount ok ms = Some v -> ok v = true.
Proof.
  induction ms as [|m ms IH]; [discriminate|]. simpl.
  destruct (accept ok (parseAmount (stripLabel m))) as [a|] eqn:E; [|exact IH].
  intros [= <-]. exact (accept_ok _ _ E).
Qed.

Lemma largestCurrency_ok (ms : list jsstring) (v : float) :
  largestCurrency ms = Some v -> okAmount v = true.
Proof.
  unfold largestCurrency.
  assert (G : forall best : option float,
             (forall x, best = Some x -> okAmount x = true) ->
             fold_left
               (fun bestFallbackAmount m =>
                  match accept okAmount (parseAmount (stripDollar m)) with
                  | Some amount =>
                      if (negb (truthyNum bestFallbackAmount)
                          || (Matches.toNumber bestFallbackAmount <? amount)%float)%bool
                      then Some amount else bestFallbackAmount
                  | None => bestFallbackAmount
                  end) ms best = Some v -> okAmount v = true).
  { induction ms as [|m ms IH]; intros best Hb; simpl.
    - apply Hb.
    - apply IH.
      destruct (accept okAmount (parseAmount (stripDollar m))) as [a|] eqn:E;
        [|exact Hb].
      destruct (negb (truthyNum best)
                || (Matches.toNumber best <? a)%float)%bool; [|exact Hb].
      intros x [= <-]. exact (accept_ok _ _ E). }
  apply G. discriminate.
Qed.

Lemma standaloneLine_ok (lines : list jsstring) (v : float) :
  standaloneLine lines = Some v -> okAmount v = true.
Proof.
  induction lines as [|l lines IH]; [discriminate|]. simpl.
  destruct (exec standaloneAmount (trim l)) as [[whole [g|]]|]; [|exact IH..].
  destruct (accept okAmount (parseAmount g)) as [a|] eqn:E; [|exact IH].
  intros [= <-]. exact (accept_ok _ _ E).
Qed.

Lemma okFlexible_okAmount (v : float) : okFlexible v = true -> okAmount v = true.
Proof.
  unfold okFlexible, okAmount. intros H.
  apply andb_true_iff in H as [H1 H2]. rewrite H2, andb_true_r.
  exact (Binary64.ltb_trans (x := 0%float) (y := 1%float) eq_refl H1).
Qed.

Lemma flexibleAmount_ok (lines : list jsstring) (inSection : bool) (v : float) :
  flexibleAmount inSection lines = Some v -> okAmount v = true.
Proof.
  revert inSection. induction lines as [|l lines IH]; intros inSection;
    [discriminate|].
  simpl.
  destruct (inSection || test billingSection (trim l))%bool; [|apply IH].
  destruct (exec amountGroup2 (trim l)) as [[whole [g|]]|]; [|apply IH..].
  destruct (accept okFlexible (parseAmount g)) as [a|] eqn:E; [|apply IH].
  intros [= <-]. apply okFlexible_okAmount. exact (accept_ok _ _ E).
Qed.

Lemma setTotal_sane (b : AmountBreakdown) (v : option float) :
  sane b -> (forall a, v = Some a -> okAmount a = true) -> sane (setTotal b v).
Proof.
  intros (Ht & Hg & Hs & Hx) Hv. destruct v as [a|]; [|now repeat split].
  repeat split; simpl; auto.
Qed.

Lemma extractAmounts_sane (text : jsstring) : sane (extractAmounts text).
Proof.
  unfold extractAmounts.
  assert (H0 : sane emptyBreakdown) by (repeat split; discriminate).
  assert (H1 : sane (strategy1 text emptyBreakdown)).
  { apply setTotal_sane; [exact H0|apply firstAmount_ok]. }
  set (b1 := strategy1 text emptyBreakdown) in *.
  assert (H1b : sane (strategy1b text b1)).
  { unfold strategy1b. destruct (negb (truthyNum (total b1))); [|exact H1].
    apply setTotal_sane; [exact H1|apply firstAmount_ok]. }
  set (b1b := strategy1b text b1) in *.
  assert (H2 : sane (strategy2 text b1b)).
  { apply setTotal_sane; [exact H1b|apply multiLineTotal_ok]. }
  set (b2 := strategy2 text b1b) in *.
  assert (H3 : sane (strategy3 text b2)).
  { unfold strategy3, setGrandTotal.
    destruct (firstAmount okAmount (match_g grandTotalRegex text)) as [a|] eqn:E;
      [|exact H2].
    destruct H2 as (Ht & Hg & Hs & Hx). repeat split; simpl; auto.
    intros x [= <-]. exact (firstAmount_ok _ _ E). }
  set (b3 := strategy3 text b2) in *.
  assert (H4 : sane (strategy4 text b3)).
  { unfold strategy4.
    destruct (negb (truthyNum (grandTotal b3)) && negb (truthyNum (total b3)))%bool;
      [|exact H3].
    apply setTotal_sane; [exact H3|apply firstAmount_ok]. }
  set (b4 := strategy4 text b3) in *.
  assert (H5 : sane (strategy5 text b4)).
  { unfold strategy5, setSubtotal.
    destruct (firstAmount okAmount (match_g subtotalRegex text)) as [a|] eqn:E;
      [|exact H4].
    destruct H4 as (Ht & Hg & Hs & Hx). repeat split; simpl; auto.
    intros x [= <-]. exact (firstAmount_ok _ _ E). }
  set (b5 := strategy5 text b4) in *.
  assert (H6 : sane (strategy6 text b5)).
  { unfold strategy6, setTax.
    destruct (firstAmount okTax (match_g taxRegex text)) as [a|] eqn:E;
      [|exact H5].
    destruct H5 as (Ht & Hg & Hs & Hx). repeat split; simpl; auto.
    intros x [= <-]. exact (firstAmount_ok _ _ E). }
  set (b6 := strategy6 text b5) in *.
  assert (H7 : sane (strategy7 text b6)).
  { unfold strategy7. destruct (noTotalYet b6); [|exact H6].
    destruct (truthyNum (largestCurrency (match_g currencyRegex text))); [|exact H6].
    apply setTotal_sane; [exact H6|apply largestCurrency_ok]. }
  set (b7 := strategy7 text b6) in *.
  assert (H8 : sane (strategy8 text b7)).
  { unfold strategy8. destruct (noTotalYet b7); [|exact H7].
    apply setTotal_sane; [exact H7|apply standaloneLine_ok]. }
  set (b8 := strategy8 text b7) in *.
  assert (H9 : sane (strategy9 text b8)).
  { unfold strategy9. destruct (noTotalYet b8); [|exact H8].
    apply setTotal_sane; [exact H8|apply firstAmount_ok]. }
  set (b9 := strategy9 text b8) in *.
  unfold strategy10. destruct (noTotalYet b9); [|exact H9].
  apply setTotal_sane; [exact H9|apply flexibleAmount_ok].
Qed.

Lemma okAmount_range (v : float) :
  okAmount v = true -> (0 <? v)%float = true /\ (v <? 50000)%float = true.
Proof. unfold okAmount. intros H. now apply andb_true_iff in H. Qed.

Lemma mainAmount_field (b : AmountBreakdown) (a : float) :
  mainAmount b = Some a ->
  grandTotal b = Some a \/ total b = Some a \/ subtotal b = Some a.
Proof.
  unfold mainAmount, orNum.
  destruct (truthyNum (grandTotal b)) eqn:Eg.
  - rewrite Eg. now left.
  - destruct (truthyNum (total b)) eqn:Et; intros H.
    + right. now left.
    + right. now right.
Qed.

(** X1.  Whatever the text, an extracted amount is a number strictly between
    0 and 50000, and so is every total, grand total and subtotal of the
    breakdown; a tax of the breakdown is at least 0 and below 10000, also
    when no amount is found: ["VAT 5.00"] sets the tax and nothing else. *)
Theorem extracted_amount_within_sanity_bounds :
  forall text : jsstring,
    (forall a : float,
        mainAmount (extractAmounts text) = Some a
        \/ total (extractAmounts text) = Some a
        \/ grandTotal (extractAmounts text) = Some a
        \/ subtotal (extractAmounts text) = Some a ->
        (0 <? a)%float = true /\ (a <? 50000)%float = true /\ isNaN a = false)
    /\ (forall t : float,
          tax (extractAmounts text) = Some t ->
          (0 <=? t)%float = true /\ (t <? 10000)%float = true)
    /\ extractAmounts (js "VAT 5.00")
       = {| subtotal := None; tax := Some 5%float; total := None; grandTotal := None |}
    /\ mainAmount (extractAmounts (js "VAT 5.00")) = None.
Proof.
  intros text.
  destruct (extractAmounts_sane text) as (Ht & Hg & Hs & Hx).
  split; [|split; [|split]].
  - intros a H.
    assert (Hok : okAmount a = true).
    { destruct H as [H|[H|[H|H]]]; auto.
      apply mainAmount_field in H as [H|[H|H]]; auto. }
    unfold okAmount in Hok. apply andb_true_iff in Hok as [H0 H1].
    split; [exact H0|]. split; [exact H1|].
    exact (Binary64.ltb_is_number H0).
  - intros t H. specialize (Hx t H). unfold okTax in Hx.
    now apply andb_true_iff in Hx.
  - rewrite (extractAmounts_ascii (js "VAT 5.00") eq_refl). vm_compute. reflexivity.
  - rewrite (extractAmounts_ascii (js "VAT 5.00") eq_refl). vm_compute. reflexivity.
Qed.

End More_amounts.

(* ================================================================== *)
(** * Further properties: merchant                                      *)
(* ================================================================== *)

Section More_merchant.
Import JS Regex Receipts.

Definition plausibleName (o : option jsstring) : Prop :=
  forall m, o = Some m -> (3 <= List.length m <= 60)%nat.

Lemma headerCandidate_length (line : jsstring) :
  headerCandidate line = true -> (3 <= List.length line <= 60)%nat.
Proof.
  unfold headerCandidate. intros H.
  apply andb_true_iff in H as [H _].
  apply andb_true_iff in H as [H _].
  apply andb_true_iff in H as [H3 H60].
  apply Nat.leb_le in H3, H60. lia.
Qed.

Lemma headerScan_plausible (lines : list jsstring) (p : option jsstring) :
  plausibleName p -> plausibleName (headerScan lines p).
Proof.
  revert p. induction lines as [|l lines IH]; intros p Hp;
    cbn [headerScan]; [exact Hp|].
  destruct (headerCandidate (trim l)) eqn:Hc; [|now apply IH].
  apply headerCandidate_length in Hc.
  destruct (test companyIndicator (trim l)).
  - intros m [= <-]. exact Hc.
  - destruct (test properCapitalization (trim l) && negb (truthyStr p))%bool;
      apply IH; [|exact Hp].
    intros m [= <-]. exact Hc.
Qed.

Lemma known_names_plausible :
  (3 <= List.length Starlink <= 60)%nat /\ (3 <= List.length Birdseye <= 60)%nat.
Proof. vm_compute. repeat split; repeat constructor. Qed.

Lemma serviceOfMatches_known (ms : list jsstring) (m : jsstring) :
  serviceOfMatches ms = Some m -> m = Starlink \/ m = Birdseye.
Proof.
  induction ms as [|x ms IH]; [discriminate|]. cbn [serviceOfMatches].
  destruct (test (alts [liti "starlink"; liti "spacex"]) x); [intros [= <-]; now left|].
  destruct (test (alts [liti "birdseye"; liti "surveillance"]) x);
    [intros [= <-]; now right|exact IH].
Qed.

Lemma serviceScan_plausible (patterns : list regex) (text : jsstring)
  (p : option jsstring) :
  plausibleName p -> plausibleName (serviceScan patterns text p).
Proof.
  revert p. induction patterns as [|r rs IH]; intros p Hp;
    cbn [serviceScan]; [exact Hp|].
  destruct (match_g r text) as [|m0 ms] eqn:Em; [now apply IH|].
  assert (Hp' : plausibleName
                  match serviceOfMatches (m0 :: ms) with
                  | Some m => Some m
                  | None => p
                  end).
  { destruct (serviceOfMatches (m0 :: ms)) as [k|] eqn:Ek; [|exact Hp].
    intros m [= <-].
    destruct (serviceOfMatches_known _ Ek) as [-> | ->];
      apply known_names_plausible. }
  destruct (isKnownService _); [exact Hp'|now apply IH].
Qed.

Lemma extractMerchant_stages (U : StringLib) (text : jsstring) :
  plausibleName
    (knownVendor text
       (serviceProvider text
          (billToSection text
             (headerScan
                (firstn 8 (filter (fun line => Nat.ltb 0 (List.length (trim line)))
                                  (split_lines text))) None)))).
Proof.
  set (p1 := headerScan _ None).
  assert (H1 : plausibleName p1) by (apply headerScan_plausible; discriminate).
  assert (H2 : plausibleName (billToSection text p1)).
  { unfold billToSection. destruct (negb (truthyStr p1)); [|exact H1].
    destruct (exec billToRegex text) as [[whole [g|]]|]; [|exact H1..].
    destruct (truthyStr (Some g)); [|exact H1].
    destruct (Nat.leb 3 (List.length (trim g))
              && Nat.leb (List.length (trim g)) 60)%bool eqn:E; [|exact H1].
    apply andb_true_iff in E as [E3 E60]. apply Nat.leb_le in E3, E60.
    intros m [= <-]. lia. }
  set (p2 := billToSection text p1) in *.
  assert (H3 : plausibleName (serviceProvider text p2)).
  { unfold serviceProvider.
    destruct (negb (truthyStr p2) || _)%bool; [|exact H2].
    now apply serviceScan_plausible. }
  set (p3 := serviceProvider text p2) in *.
  unfold knownVendor.
  destruct (includes (toLowerCase text) (js "birdseye")
            && includes (toLowerCase text) (js "surveillance"))%bool; [|exact H3].
  intros m [= <-]. apply known_names_plausible.
Qed.

(** X2.  A merchant name that comes out of the extraction has between 3 and
    60 code units, whatever the text: header lines and bill-to candidates are
    accepted only within these bounds and the two canonical vendor names lie
    within them. *)
Theorem extracted_merchant_length_bounds :
  forall (U : StringLib) (text m : jsstring),
    extractMerchant text = Some m -> (3 <= List.length m <= 60)%nat.
Proof.
  intros U text m. unfold extractMerchant.
  pose proof (extractMerchant_stages U text) as H.
  destruct (truthyStr _); [|discriminate]. apply H.
Qed.

Lemma extracted_merchant_length_bounds_witness :
  (3 <= List.length noTextPlaceholder <= 60)%nat.
Proof.
  apply (@extracted_merchant_length_bounds Reference.asciiCase noTextPlaceholder).
  vm_compute. reflexivity.
Defined.

(** X3.  A text that contains both "birdseye" and "surveillance", in any
    letter case and anywhere, gets the merchant "Birdseye Surveillance LLC",
    whatever its header lines, bill-to section or service terms say. *)
Theorem birdseye_text_overrides_merchant :
  forall (U : StringLib) (text : jsstring),
    includes (toLowerCase text) (js "birdseye") = true ->
    includes (toLowerCase text) (js "surveillance") = true ->
    extractMerchant text = Some (js "Birdseye Surveillance LLC").
Proof.
  intros U text Hb Hs. unfold extractMerchant, knownVendor.
  rewrite Hb, Hs. reflexivity.
Qed.

Lemma birdseye_text_overrides_merchant_witness :
  @extractMerchant Reference.asciiCase
    (js ("Chasco Constructors" ++ Texts.nl ++ "BIRDSEYE video Surveillance" ++ Texts.nl))
  = Some (js "Birdseye Surveillance LLC").
Proof.
  apply (@birdseye_text_overrides_merchant Reference.asciiCase);
    vm_compute; reflexivity.
Defined.

End More_merchant.

(* ================================================================== *)
(** * Further properties: scoring                                       *)
(* ================================================================== *)

Section More_scoring.
Import JS Matches.
Context {M : MomentLib} {U : StringLib}.

Lemma Qle_bool_false (x y : Q) : Qle_bool x y = false -> (y < x)%Q.
Proof.
  intros H. destruct (Qlt_le_dec y x) as [L|L]; [exact L|].
  apply Qle_bool_iff in L. congruence.
Qed.

(** X4.  The amount points never grow with the difference: of two
    transactions, the one whose amount is nearer to the receipt's gets at
    least as many amount points. *)
Theorem amount_points_never_grow_with_difference :
  forall (receipt : Receipt.t) (near far : Transaction.t) (st : score),
    (amountDiffOf receipt near <=? amountDiffOf receipt far)%float = true ->
    (fst (amountMatching (amountDiffOf receipt far) st)
     <= fst (amountMatching (amountDiffOf receipt near) st))%Q.
Proof.
  intros receipt near far st Hle.
  assert (H0 : (amountDiffOf receipt near <=? 0)%float = true ->
               (amountDiffOf receipt near =? 0)%float = true)
    by apply Binary64.abs_leb_zero.
  set (d1 := amountDiffOf receipt near) in *.
  set (d2 := amountDiffOf receipt far) in *.
  assert (Hup : forall c : float, (d2 <=? c)%float = true -> (d1 <=? c)%float = true).
  { intros c Hc. exact (Binary64.leb_trans Hle Hc). }
  unfold amountMatching, award.
  destruct (d2 =? 0)%float eqn:E20.
  - rewrite (H0 (Hup _ (Binary64.eqb_leb E20))). simpl. lra.
  - destruct (d1 =? 0)%float eqn:E10.
    + destruct (d2 <=? 1)%float; [simpl; lra|].
      destruct (d2 <=? 5)%float; [simpl; lra|].
      destruct (d2 <=? 10)%float; simpl; lra.
    + destruct (d2 <=? 1)%float eqn:E21.
      * rewrite (Hup _ E21). simpl. lra.
      * destruct (d1 <=? 1)%float eqn:E11.
        { destruct (d2 <=? 5)%float; [simpl; lra|].
          destruct (d2 <=? 10)%float; simpl; lra. }
        destruct (d2 <=? 5)%float eqn:E25.
        { rewrite (Hup _ E25). simpl. lra. }
        destruct (d1 <=? 5)%float eqn:E15.
        { destruct (d2 <=? 10)%float; simpl; lra. }
        destruct (d2 <=? 10)%float eqn:E210.
        { rewrite (Hup _ E210). simpl. lra. }
        destruct (d1 <=? 10)%float; simpl; lra.
Qed.

Lemma amount_points_never_grow_with_difference_witness :
  (fst (amountMatching (amountDiffOf Samples.openaiReceipt Samples.groceryCharge)
          (0%Q, []))
   <= fst (amountMatching (amountDiffOf Samples.openaiReceipt Samples.openaiCharge)
             (0%Q, [])))%Q.
Proof.
  apply amount_points_never_grow_with_difference.
  vm_compute. reflexivity.
Defined.

(** Each factor either leaves the running score or awards once. *)
Definition oneAward (before after : score) : Prop :=
  after = before \/ exists pts why, (0 <= pts)%Q /\ after = award pts why before.

Lemma amountMatching_oneAward (d : float) (st : score) :
  oneAward st (amountMatching d st).
Proof.
  unfold amountMatching.
  destruct (d =? 0)%float; [right; eexists _, _; split; [|reflexivity]; discriminate|].
  destruct (d <=? 1)%float; [right; eexists _, _; split; [|reflexivity]; discriminate|].
  destruct (d <=? 5)%float; [right; eexists _, _; split; [|reflexivity]; discriminate|].
  destruct (d <=? 10)%float; [right; eexists _, _; split; [|reflexivity]; discriminate|].
  now left.
Qed.

Lemma dateMatching_oneAward (receipt : Receipt.t) (tx : Transaction.t) (st : score) :
  oneAward st (dateMatching receipt tx st).
Proof.
  unfold dateMatching.
  destruct (Receipt.extracted_date receipt) as [rd|]; [|now left].
  destruct (Transaction.transaction_date tx) as [td|]; [|now left].
  destruct (truthyStr (Some rd) && truthyStr (Some td))%bool; [|now left].
  destruct (parse_formats rd); [|now left].
  destruct (parse_any td) as [m0|]; [|now left].
  destruct (Z.abs (diff_days m m0) =? 0)%Z;
    [right; eexists _, _; split; [|reflexivity]; discriminate|].
  destruct (Z.abs (diff_days m m0) <=? 1)%Z;
    [right; eexists _, _; split; [|reflexivity]; discriminate|].
  destruct (Z.abs (diff_days m m0) <=? 3)%Z;
    [right; eexists _, _; split; [|reflexivity]; discriminate|].
  now left.
Qed.

Lemma merchantMatching_oneAward (receipt : Receipt.t) (tx : Transaction.t) (st : score) :
  oneAward st (merchantMatching receipt tx st).
Proof.
  unfold merchantMatching.
  destruct (Receipt.extracted_merchant receipt) as [mr|]; [|now left].
  destruct (Transaction.description tx) as [ds|]; [|now left].
  destruct (truthyStr (Some mr) && truthyStr (Some ds))%bool; [|now left].
  match goal with |- context [Nat.ltb 0 ?w] => destruct (Nat.ltb 0 w) end; [|now left].
  right. eexists _, _. split; [|reflexivity].
  apply totalMerchantPoints_range.
Qed.

Lemma oneAward_reasons (before after : score) :
  oneAward before after ->
  (List.length (snd before) <= List.length (snd after) <= S (List.length (snd before)))%nat
  /\ (List.length (snd after) = List.length (snd before) -> after = before).
Proof.
  intros [-> | (pts & why & _ & ->)]; [split; [lia|reflexivity]|].
  unfold award. simpl. rewrite length_app. simpl. split; [lia|]. intros H. lia.
Qed.

Lemma rawScore_reasons (receipt : Receipt.t) (tx : Transaction.t) :
  (List.length (snd (rawScore receipt tx)) <= 3)%nat
  /\ (List.length (snd (rawScore receipt tx)) = 0%nat ->
      rawScore receipt tx = (0%Q, [])).
Proof.
  unfold rawScore.
  set (s0 := (0%Q, @nil jsstring)).
  set (s1 := amountMatching (amountDiffOf receipt tx) s0).
  set (s2 := dateMatching receipt tx s1).
  set (s3 := merchantMatching receipt tx s2).
  destruct (oneAward_reasons (amountMatching_oneAward (amountDiffOf receipt tx) s0))
    as [H1 E1].
  destruct (oneAward_reasons (dateMatching_oneAward receipt tx s1)) as [H2 E2].
  destruct (oneAward_reasons (merchantMatching_oneAward receipt tx s2)) as [H3 E3].
  fold s1 in H1, E1. fold s2 in H2, E2. fold s3 in H3, E3.
  change (List.length (snd s0)) with 0%nat in *.
  split; [lia|]. intros Hz.
  rewrite E3 by lia. rewrite E2 by lia. apply E1. lia.
Qed.

(** X5.  Sorting only reorders: the result is a permutation of what the loop
    pushed, it has at most one candidate per transaction, and every candidate
    belongs to a transaction of the input and carries that transaction's own
    rounded score, reasons and amount difference. *)
Theorem candidates_are_scored_input_transactions :
  forall (receipt : Receipt.t) (transactions : list Transaction.t),
    let result := findPotentialMatches receipt transactions in
    Permutation result (pushedMatches receipt transactions)
    /\ (List.length result <= List.length transactions)%nat
    /\ Forall (fun m =>
                 In (transaction m) transactions
                 /\ confidence m = Math_round (fst (rawScore receipt (transaction m)))
                 /\ reasons m = snd (rawScore receipt (transaction m))
                 /\ amountDiff m = amountDiffOf receipt (transaction m))
              result.
Proof.
  intros receipt transactions result. subst result.
  assert (Hp : Permutation (findPotentialMatches receipt transactions)
                           (pushedMatches receipt transactions)).
  { rewrite findPotentialMatches_sort. apply (array_sort_perm confidence). }
  split; [exact Hp|]. split.
  - rewrite (Permutation_length Hp). unfold pushedMatches.
    destruct (negb (truthyNum (Receipt.extracted_amount receipt))
              || Nat.eqb (List.length transactions) 0)%bool; [simpl; lia|].
    clear Hp. induction transactions as [|tx l IH]; simpl; [lia|].
    rewrite length_app. unfold scoreTransaction at 1.
    destruct (Qle_bool 10 (fst (rawScore receipt tx))); simpl; lia.
  - apply Forall_forall. intros m Hin.
    apply in_findPotentialMatches in Hin as (tx & Htx & Hin).
    apply scoreTransaction_inv in Hin as [_ ->]. simpl. now repeat split.
Qed.

(** X6.  Every candidate carries at least one and at most three reasons: a
    transaction no factor speaks for has score 0 and is not included. *)
Theorem candidates_carry_one_to_three_reasons :
  forall (receipt : Receipt.t) (transactions : list Transaction.t),
    Forall (fun m => (1 <= List.length (reasons m) <= 3)%nat)
           (findPotentialMatches receipt transactions).
Proof.
  intros receipt transactions. apply Forall_forall. intros m Hin.
  apply in_findPotentialMatches in Hin as (tx & _ & Hin).
  apply scoreTransaction_inv in Hin as [H10 ->]. simpl.
  destruct (rawScore_reasons receipt tx) as [H3 H0].
  split; [|exact H3].
  destruct (List.length (snd (rawScore receipt tx))) eqn:E; [|lia].
  rewrite (H0 eq_refl) in H10. simpl in H10. lra.
Qed.

(** X7.  A refund and a charge of the same size score alike: replacing a
    transaction's amount by its opposite changes neither the amount
    difference nor the score nor the reasons. *)
Theorem sign_of_transaction_amount_is_ignored :
  forall (receipt : Receipt.t) (tx : Transaction.t),
    let mirrored := Transaction.mk (Transaction.id tx) (Transaction.transaction_date tx)
                      (Transaction.description tx) (- Transaction.amount tx)%float in
    amountDiffOf receipt mirrored = amountDiffOf receipt tx
    /\ rawScore receipt mirrored = rawScore receipt tx
    /\ map (fun m => (confidence m, reasons m, amountDiff m))
           (scoreTransaction receipt mirrored)
       = map (fun m => (confidence m, reasons m, amountDiff m))
             (scoreTransaction receipt tx).
Proof.
  intros receipt tx mirrored.
  assert (Ha : amountDiffOf receipt mirrored = amountDiffOf receipt tx).
  { unfold amountDiffOf, mirrored. cbn [Transaction.amount].
    now rewrite Binary64.abs_opp. }
  assert (Hr : rawScore receipt mirrored = rawScore receipt tx).
  { unfold rawScore. rewrite Ha. reflexivity. }
  split; [exact Ha|]. split; [exact Hr|].
  unfold scoreTransaction. rewrite Hr, Ha.
  destruct (Qle_bool 10 (fst (rawScore receipt tx))); reflexivity.
Qed.

End More_scoring.

(* ================================================================== *)
(** * Further properties: the policy and the routes                     *)
(* ================================================================== *)

Section More_policy.
Import JS Matches AutoMatch MatchRoutes.
Context {M : MomentLib} {U : StringLib}.

Lemma candidate_confidence_range (receipt : Receipt.t)
  (transactions : list Transaction.t) (m : MatchCandidate) :
  In m (findPotentialMatches receipt transactions) ->
  (10 <= confidence m <= 105)%Z /\ In (transaction m) transactions.
Proof.
  intros Hin. apply in_findPotentialMatches in Hin as (tx & Htx & Hin).
  apply scoreTransaction_inv in Hin as [H10 ->]. simpl. split; [|exact Htx].
  apply Math_round_range; [exact H10|apply (rawScore_range receipt tx)].
Qed.

(** X8.  A receipt that has an amount but neither date nor merchant scores
    at most 60 against any transaction, so the single-receipt path never
    auto-matches it and the bulk path does so only under a threshold lowered
    to 60 or less. *)
Theorem amount_alone_never_reaches_default_threshold :
  forall (rid receiptId : Z) (amount : option float)
         (transactions : list Transaction.t) (threshold : Q),
    let receipt := Receipt.mk rid amount None None in
    Forall (fun m => (confidence m <= 60)%Z) (findPotentialMatches receipt transactions)
    /\ triggerAutoMatchForReceipt receiptId (DbRows (Some receipt)) (DbRows transactions)
       = []
    /\ ((60 < threshold)%Q -> autoMatchReceipt threshold transactions receipt = []).
Proof.
  intros rid receiptId amount transactions threshold receipt.
  assert (H60 : Forall (fun m => (confidence m <= 60)%Z)
                       (findPotentialMatches receipt transactions)).
  { apply Forall_forall. intros m Hin.
    apply in_findPotentialMatches in Hin as (tx & _ & Hin).
    apply scoreTransaction_inv in Hin as [H10 ->]. simpl.
    assert (Hr : rawScore receipt tx
                 = amountMatching (amountDiffOf receipt tx) (0%Q, [])) by reflexivity.
    rewrite Hr in *.
    pose proof (amountMatching_range (amountDiffOf receipt tx) (0%Q, [])) as Ha.
    change (fst (0%Q, @nil jsstring)) with 0%Q in Ha.
    apply (@Math_round_range _ 10%Z 60%Z); [exact H10|].
    change (inject_Z 60) with 60%Q. lra. }
  split; [exact H60|]. split.
  - unfold triggerAutoMatchForReceipt.
    destruct (findPotentialMatches receipt transactions) as [|best rest];
      [reflexivity|].
    apply Forall_inv in H60.
    destruct (70 <=? confidence best)%Z eqn:E; [|reflexivity].
    apply Z.leb_le in E. lia.
  - intros Hthr. unfold autoMatchReceipt.
    destruct (findPotentialMatches receipt transactions) as [|best rest];
      [reflexivity|].
    apply Forall_inv in H60.
    destruct (Qle_bool threshold (inject_Z (confidence best))) eqn:E; [|reflexivity].
    apply Qle_bool_iff in E.
    assert (inject_Z (confidence best) <= inject_Z 60)%Q by now rewrite <- Zle_Qle.
    change (inject_Z 60) with 60%Q in *. lra.
Qed.

Lemma StronglySorted_app_inv (A : Type) (R : A -> A -> Prop) (l1 l2 : list A) :
  StronglySorted R (l1 ++ l2) ->
  StronglySorted R l1 /\ forall a b, In a l1 -> In b l2 -> R a b.
Proof.
  induction l1 as [|x l1 IH]; simpl; intros Hs.
  - split; [constructor|]. intros a b [].
  - apply StronglySorted_inv in Hs as [Hs Hx].
    destruct (IH Hs) as [H1 H2]. split.
    + constructor; [exact H1|]. apply Forall_forall. intros y Hy.
      rewrite Forall_forall in Hx. apply Hx, in_or_app. now left.
    + intros a b [<-|Ha] Hb; [|now apply H2].
      rewrite Forall_forall in Hx. apply Hx, in_or_app. now right.
Qed.

(** X9.  [POST /find/:receiptId] answers 404 for an unknown receipt and 500
    when a query fails; otherwise it returns at most ten candidates, the
    first ten of the ranking: they are in descending order and no candidate
    left out has a higher confidence than one returned. *)
Theorem find_returns_ten_best :
  forall (receipt : Receipt.t) (transactions : list Transaction.t)
         (all : db_result (list Transaction.t)),
    let ranking := findPotentialMatches receipt transactions in
    findForReceipt (DbRows None) all = Http404
    /\ findForReceipt DbError all = Http500
    /\ findForReceipt (DbRows (Some receipt)) DbError = Http500
    /\ exists shown,
         findForReceipt (DbRows (Some receipt)) (DbRows transactions)
         = Ok (receipt, shown)
         /\ (List.length shown <= 10)%nat
         /\ List.length shown = Nat.min 10 (List.length ranking)
         /\ ranking = shown ++ skipn 10 ranking
         /\ StronglySorted (fun a b => (confidence b <= confidence a)%Z) shown
         /\ (forall kept dropped,
               In kept shown -> In dropped (skipn 10 ranking) ->
               (confidence dropped <= confidence kept)%Z).
Proof.
  intros receipt transactions all ranking.
  repeat split.
  exists (firstn 10 ranking).
  pose proof (findPotentialMatches_descending receipt transactions) as Hs.
  fold ranking in Hs. rewrite <- (firstn_skipn 10 ranking) in Hs.
  apply StronglySorted_app_inv in Hs as [Hs1 Hs2].
  split; [reflexivity|]. split; [apply firstn_le_length|].
  split; [apply length_firstn|]. split; [symmetry; apply firstn_skipn|].
  split; [exact Hs1|]. intros kept dropped Hk Hd. now apply Hs2.
Qed.


End More_policy.

Section More_upload.
Import JS Matches AutoMatch Receipts ReceiptRoutes.
Context {M : MomentLib} {D : DateLib} {U : StringLib}.

Lemma truthyNum_Some (o : option float) :
  truthyNum o = true -> exists a, o = Some a.
Proof. destruct o as [a|]; [now exists a|discriminate]. Qed.

(** X11.  An upload leads to at most one upsert, and only when OCR returned,
    the update of the row succeeded and an amount was extracted, which then
    lies strictly between 0 and 50000; the upsert is an auto_matched,
    unconfirmed row for the uploaded receipt with confidence 70 to 105.
    When OCR throws, the row is marked failed and nothing is matched; a PDF
    with fewer than ten characters of text is stored as completed and is
    never auto-matched. *)
Theorem upload_auto_matches_only_with_an_amount :
  forall (receiptId : Z) (mime : mimeType) (recovered : option jsstring)
         (updateErr : bool) (got : db_result (option Receipt.t))
         (transactions : db_result (list Transaction.t)),
    let rows := uploadAutoMatch receiptId mime recovered updateErr got transactions in
    (List.length rows <= 1)%nat
    /\ Forall (fun row =>
                 receipt_id row = receiptId
                 /\ status row = auto_matched /\ user_confirmed row = false
                 /\ (70 <= match_confidence row <= 105)%Z
                 /\ updateErr = false
                 /\ exists ocr a,
                      processReceiptOCR mime recovered = Some ocr
                      /\ extractedAmount ocr = Some a
                      /\ (0 <? a)%float = true /\ (a <? 50000)%float = true) rows
    /\ afterOcr receiptId (processReceiptOCR mime None) updateErr
       = {| write := SetStatus receiptId failed; autoMatchTriggered := false |}
    /\ (forall t : jsstring,
          (List.length (trim t) < 10)%nat ->
          afterOcr receiptId (processReceiptOCR ApplicationPdf (Some t)) updateErr
          = {| write := StoreOcr receiptId noTextPlaceholder None None
                          (Some noTextPlaceholder) completed;
               autoMatchTriggered := false |}
          /\ uploadAutoMatch receiptId ApplicationPdf (Some t) updateErr got
               transactions = []).
Proof.
  intros receiptId mime recovered updateErr got transactions rows.
  assert (Hrows : rows = [] \/
            exists ocr a best,
              processReceiptOCR mime recovered = Some ocr
              /\ extractedAmount ocr = Some a /\ updateErr = false
              /\ (70 <= confidence best <= 105)%Z
              /\ rows = [autoMatchedRow (Transaction.id (transaction best)) receiptId
                           (confidence best)]).
  { subst rows. unfold uploadAutoMatch.
    destruct (processReceiptOCR mime recovered) as [ocr|] eqn:Eo; [|now left].
    unfold afterOcr. cbn [autoMatchTriggered].
    destruct updateErr; [now left|]. cbn [negb andb].
    destruct (truthyNum (extractedAmount ocr)) eqn:Ea; [|now left].
    apply truthyNum_Some in Ea as [a Ea].
    unfold triggerAutoMatchForReceipt.
    destruct got as [|[receipt|]]; [now left| |now left].
    destruct transactions as [|ts]; [now left|].
    destruct (findPotentialMatches receipt ts) as [|best rest] eqn:Ef; [now left|].
    destruct (70 <=? confidence best)%Z eqn:E70; [|now left].
    apply Z.leb_le in E70. right. exists ocr, a, best.
    assert (Hb : In best (findPotentialMatches receipt ts))
      by (rewrite Ef; now left).
    apply candidate_confidence_range in Hb as [Hc _].
    repeat split; try reflexivity; try assumption; lia. }
  split; [|split; [|split]].
  - destruct Hrows as [-> | (ocr & a & best & _ & _ & _ & _ & ->)]; simpl; lia.
  - destruct Hrows as [-> | (ocr & a & best & Ho & Ha & He & Hc & ->)];
      constructor; [|constructor].
    simpl. repeat split; try assumption; try lia.
    exists ocr, a. split; [exact Ho|]. split; [exact Ha|].
    unfold processReceiptOCR in Ho. destruct recovered as [t|]; [|discriminate].
    injection Ho as <-. simpl in Ha.
    destruct (extractAmounts_sane (sourceText mime t)) as (Ht & Hg & Hs & _).
    apply okAmount_range.
    apply mainAmount_field in Ha as [Ha|[Ha|Ha]]; auto.
  - reflexivity.
  - intros t Ht.
    assert (Hs : sourceText ApplicationPdf t = noTextPlaceholder).
    { unfold sourceText. apply Nat.ltb_lt in Ht. now rewrite Ht, orb_true_r. }
    assert (Ho : processReceiptOCR ApplicationPdf (Some t)
                 = Some (extractFields noTextPlaceholder)).
    { unfold processReceiptOCR. now rewrite Hs. }
    assert (Hf : extractFields noTextPlaceholder
                 = {| text := noTextPlaceholder; extractedAmount := None;
                      extractedDate := None;
                      extractedMerchant := Some noTextPlaceholder;
                      amountBreakdown := emptyBreakdown |}).
    { unfold extractFields.
      rewrite placeholder_amounts, placeholder_merchant, placeholder_date.
      reflexivity. }
    split.
    + rewrite Ho, Hf. unfold afterOcr. simpl. now rewrite andb_false_r.
    + unfold uploadAutoMatch. rewrite Ho, Hf. unfold afterOcr. simpl.
      now rewrite andb_false_r.
Qed.

End More_upload.

Section More_match_table.
Import AutoMatch MatchRoutes.
Variable conflicts : match_row -> match_row -> bool.

Definition allDecided (table : list stored) : Prop :=
  Forall (fun s => decided (fields s)) table.

Lemma createRow_decided (t r c : option Z) (auto : bool) (row : match_row) :
  createRow t r c auto = Ok row -> decided row.
Proof.
  unfold createRow. destruct (missingId t || missingId r)%bool; [discriminate|].
  intros [= <-]. unfold decided. simpl. destruct auto; split; congruence.
Qed.

Lemma insertOrReplace_decided (lastID : Z) (row : match_row) (table : list stored) :
  decided row -> allDecided table ->
  allDecided (insertOrReplace conflicts lastID row table).
Proof.
  intros Hr Ht. unfold insertOrReplace, allDecided.
  apply Forall_app. split.
  - unfold allDecided in Ht. rewrite Forall_forall in Ht |- *.
    intros s Hs. apply filter_In in Hs as [Hs _]. now apply Ht.
  - constructor; [exact Hr|constructor].
Qed.

Lemma setDecision_decided (id : Z) (flag : bool) (st : match_status)
  (table : list stored) :
  (flag = true <-> st = confirmed) -> allDecided table ->
  allDecided (setDecision id flag st table).
Proof.
  intros Hf Ht. unfold setDecision, allDecided in *.
  rewrite Forall_forall in Ht. apply Forall_forall. intros s Hs.
  apply in_map_iff in Hs as (s0 & <- & Hs0).
  destruct (match_id s0 =? id)%Z; [exact Hf|now apply Ht].
Qed.

Lemma handle_decided (rq : request) (table : list stored) :
  fromRoutes rq -> allDecided table -> allDecided (snd (handle conflicts rq table)).
Proof.
  intros Hrq Ht. destruct rq as [t r c auto lastID | row lastID | id | id | id]; simpl.
  - destruct (createRow t r c auto) as [ | | |row] eqn:E; simpl; try exact Ht.
    apply insertOrReplace_decided; [|exact Ht]. exact (createRow_decided _ _ _ _ E).
  - apply insertOrReplace_decided; [|exact Ht].
    destruct Hrq as (tid & rid & conf & ->). unfold decided. simpl.
    split; discriminate.
  - apply setDecision_decided; [|exact Ht]. now split.
  - apply setDecision_decided; [|exact Ht]. split; discriminate.
  - unfold allDecided in *. rewrite Forall_forall in Ht |- *.
    intros s Hs. apply filter_In in Hs as [Hs _]. now apply Ht.
Qed.

(** X12.  Whatever sequence of create, auto-match, confirm, reject and
    delete requests the matches routes carry out, and whatever the table's
    uniqueness constraints are, a row has [user_confirmed = 1] exactly when
    its [match_status] is 'confirmed', provided this held of the table
    before. *)
Theorem confirmed_flag_and_status_agree :
  forall (requests : list request) (table : list stored),
    Forall fromRoutes requests ->
    Forall (fun s => decided (fields s)) table ->
    Forall (fun s => user_confirmed (fields s) = true
                     <-> status (fields s) = confirmed)
           (handleAll conflicts requests table).
Proof.
  intros requests. unfold handleAll.
  induction requests as [|rq rqs IH]; intros table Hrq Ht; simpl; [exact Ht|].
  apply IH; [now apply Forall_inv_tail in Hrq|].
  apply handle_decided; [now apply Forall_inv in Hrq|exact Ht].
Qed.

Lemma setDecision_ids (id : Z) (flag : bool) (st : match_status) (table : list stored) :
  map match_id (setDecision id flag st table) = map match_id table.
Proof.
  unfold setDecision. rewrite map_map. apply map_ext. intros s.
  now destruct (match_id s =? id)%Z.
Qed.

Lemma changes_zero (id : Z) (table : list stored) :
  changes id table = 0%nat <-> Forall (fun s => match_id s <> id) table.
Proof.
  unfold changes. induction table as [|s table IH]; simpl.
  - split; [constructor|reflexivity].
  - destruct (match_id s =? id)%Z eqn:E; simpl.
    + apply Z.eqb_eq in E. split; [discriminate|].
      intros H. apply Forall_inv in H. contradiction.
    + apply Z.eqb_neq in E. rewrite IH. split.
      * intros H. now constructor.
      * intros H. now apply Forall_inv_tail in H.
Qed.

(** X13.  Confirm and reject answer 404 exactly when no row has the given
    id, and then the table is unchanged; otherwise they keep the rows and
    their ids, set flag and status of every row with that id (to 1 and
    'confirmed', or to 0 and 'rejected'), and leave transaction, receipt and
    confidence of every row, and all other rows, as they were. *)
Theorem decision_changes_only_the_named_match :
  forall (id : Z) (table : list stored) (confirming : bool),
    let rq := if confirming then Confirm id else Reject id in
    let after := snd (handle conflicts rq table) in
    (fst (handle conflicts rq table) = Http404
     <-> Forall (fun s => match_id s <> id) table)
    /\ (fst (handle conflicts rq table) = Http404 -> after = table)
    /\ map match_id after = map match_id table
    /\ map (fun s => (transaction_id (fields s), receipt_id (fields s),
                      match_confidence (fields s))) after
       = map (fun s => (transaction_id (fields s), receipt_id (fields s),
                        match_confidence (fields s))) table
    /\ filter (fun s => negb (match_id s =? id)%Z) after
       = filter (fun s => negb (match_id s =? id)%Z) table
    /\ Forall (fun s => match_id s = id ->
                 user_confirmed (fields s) = confirming
                 /\ status (fields s) = if confirming then confirmed else rejected)
              after.
Proof.
  intros id table confirming rq after.
  assert (Ha : after = setDecision id confirming
                         (if confirming then confirmed else rejected) table).
  { subst after rq. now destruct confirming. }
  assert (Hf : fst (handle conflicts rq table)
               = if Nat.eqb (changes id table) 0 then Http404 else Ok tt).
  { subst rq. now destruct confirming. }
  rewrite Hf, Ha. clear Ha Hf after rq.
  set (st := if confirming then confirmed else rejected).
  assert (Hsame : Forall (fun s => match_id s <> id) table ->
                  setDecision id confirming st table = table).
  { intros H. unfold setDecision. rewrite <- (map_id table) at 2.
    apply map_ext_in. intros s Hs. rewrite Forall_forall in H.
    specialize (H s Hs). apply Z.eqb_neq in H. now rewrite H. }
  split; [|split; [|split; [|split; [|split]]]].
  - rewrite <- changes_zero.
    destruct (Nat.eqb (changes id table) 0) eqn:E.
    + apply Nat.eqb_eq in E. now split.
    + apply Nat.eqb_neq in E. split; [discriminate|contradiction].
  - destruct (Nat.eqb (changes id table) 0) eqn:E; [|discriminate].
    intros _. apply Hsame, changes_zero. now apply Nat.eqb_eq.
  - apply setDecision_ids.
  - unfold setDecision. rewrite map_map. apply map_ext. intros s.
    now destruct (match_id s =? id)%Z.
  - clear Hsame. unfold setDecision.
    induction table as [|s table IH]; simpl; [reflexivity|].
    destruct (match_id s =? id)%Z eqn:E; simpl; rewrite E; simpl.
    + exact IH.
    + f_equal. exact IH.
  - apply Forall_forall. intros s Hs. unfold setDecision in Hs.
    apply in_map_iff in Hs as (s0 & <- & _).
    destruct (match_id s0 =? id)%Z eqn:E; simpl.
    + now intros _.
    + apply Z.eqb_neq in E. intros H. contradiction.
Qed.

End More_match_table.

Lemma confirmed_flag_and_status_agree_witness :
  Forall (fun s => AutoMatch.user_confirmed (MatchRoutes.fields s) = true
                   <-> AutoMatch.status (MatchRoutes.fields s) = AutoMatch.confirmed)
    (MatchRoutes.handleAll
       (fun old new => (AutoMatch.transaction_id old =? AutoMatch.transaction_id new)%Z)
       [MatchRoutes.AutoMatched (AutoMatch.autoMatchedRow 10 1 105) 1;
        MatchRoutes.Create (Some 11%Z) (Some 1%Z) None false 2;
        MatchRoutes.Confirm 1; MatchRoutes.Reject 2; MatchRoutes.Delete 7]
       []).
Proof.
  apply confirmed_flag_and_status_agree.
  - repeat constructor. exists 10%Z, 1%Z, 105%Z. reflexivity.
  - constructor.
Defined.

Section More_import.
Import ImportRoute.
Variable total : nat.

(** Between two completions: the two counters add up to the inserts carried
    out, the import counter counts those that inserted a row; and either the
    finalize is still queued behind the remaining inserts and nothing has
    been answered, or all inserts are done and the answer holds the
    counters. *)
Definition import_invariant (m : import_machine) : Prop :=
  importCount (counters m) = List.length (filter isInserted (outcomes m))
  /\ (importCount (counters m) + skipCount (counters m)
      = List.length (outcomes m))%nat
  /\ ((exists k : nat,
         calls m = repeat RunInsert k ++ [FinalizeImport]
         /\ answered (counters m) = None
         /\ (List.length (outcomes m) + k = total)%nat)
      \/ (calls m = []
          /\ List.length (outcomes m) = total
          /\ (answered (counters m) = Some ImportStatus500
              \/ answered (counters m)
                 = Some (ImportJson (importCount (counters m))
                           (skipCount (counters m)) total)))).

Lemma carryOut_preserves (o : insert_outcome) (m : import_machine) :
  import_invariant m -> import_invariant (carryOut total o m).
Proof.
  intros (Hi & Hs & [(k & Hc & Ha & Hn) | (Hc & Hn & Ha)]).
  - unfold carryOut. rewrite Hc. destruct k as [|k]; simpl.
    + split; [exact Hi|]. split; [exact Hs|]. right. simpl.
      split; [reflexivity|]. split; [lia|].
      destruct o; [now left|now right..].
    + split; [|split]; simpl.
      * rewrite filter_app, length_app. destruct o; simpl; lia.
      * rewrite length_app. destruct o; simpl; lia.
      * left. exists k. rewrite length_app. simpl.
        split; [reflexivity|]. split; [now destruct o|lia].
  - unfold carryOut. rewrite Hc. split; [exact Hi|]. split; [exact Hs|].
    right. now repeat split.
Qed.

Lemma carryOutAll_preserves (os : list insert_outcome) (m : import_machine) :
  import_invariant m -> import_invariant (carryOutAll total os m).
Proof.
  unfold carryOutAll. revert m.
  induction os as [|o os IH]; intros m Hm; simpl; [exact Hm|].
  apply IH. now apply carryOut_preserves.
Qed.

Lemma afterInserts_invariant : import_invariant (afterInserts total).
Proof.
  split; [reflexivity|]. split; [reflexivity|]. left. exists total.
  now repeat split.
Qed.

End More_import.

Section More_import_answer.
Import ImportRoute.

(** X14.  In the answer of [POST /import] the imported and the skipped rows
    add up to the total, the total being the number of rows parsed, and the
    imported count is the number of inserts that changed the table: the
    answer is built when every insert has completed, and each completion
    moves exactly one of the two counters. *)
Theorem import_counts_add_up :
  forall (total : nat) (os : list insert_outcome),
    let m := carryOutAll total os (afterInserts total) in
    (importCount (counters m) + skipCount (counters m)
     = List.length (outcomes m))%nat
    /\ forall imported skipped n,
         answered (counters m) = Some (ImportJson imported skipped n) ->
         n = total
         /\ (imported + skipped = total)%nat
         /\ List.length (outcomes m) = total
         /\ imported = List.length (filter isInserted (outcomes m)).
Proof.
  intros total os m.
  destruct (carryOutAll_preserves os (afterInserts_invariant total))
    as (Hi & Hs & Hq).
  fold m in Hi, Hs, Hq. split; [exact Hs|].
  intros imported skipped n Ha.
  destruct Hq as [(k & _ & Hn & _) | (_ & Hn & [Hr|Hr])];
    rewrite Hr in Ha || rewrite Hn in Ha; try discriminate.
  injection Ha as <- <- <-. repeat split; try assumption; lia.
Qed.

End More_import_answer.

Section More_words.
Import JS Matches.

Lemma countWords_ignore (desc : jsstring) (ws : list jsstring) (counts : nat * nat) :
  fold_left (countWord desc) ws counts
  = fold_left (countWord desc) (filter eligible ws) counts.
Proof.
  revert counts. induction ws as [|w ws IH]; intros counts; simpl; [reflexivity|].
  destruct (eligible w) eqn:E; simpl.
  - apply IH.
  - rewrite <- IH. f_equal. unfold countWord. now rewrite E.
Qed.

(** The loop counts the eligible tokens the description contains, and among
    them those of five characters or more. *)
Lemma countWords_counts (desc : jsstring) (ws : list jsstring) (counts : nat * nat) :
  let hits := filter (includes desc) (filter eligible ws) in
  fold_left (countWord desc) ws counts
  = ((fst counts + List.length hits)%nat,
     (snd counts
      + List.length (filter (fun w => Nat.leb 5 (List.length w)) hits))%nat).
Proof.
  cbv zeta. revert counts. induction ws as [|w ws IH]; intros [n k].
  - cbn [fold_left filter List.length fst snd]. now rewrite !Nat.add_0_r.
  - cbn [fold_left]. rewrite IH. unfold countWord. cbn [filter].
    destruct (eligible w); [|reflexivity]. cbn [filter].
    destruct (includes desc w); [|reflexivity]. cbn [filter fst snd].
    destruct (Nat.leb 5 (List.length w)); cbn [List.length]; f_equal; lia.
Qed.

Lemma includes_nil (w : jsstring) : w <> [] -> includes [] w = false.
Proof. destruct w; [contradiction|reflexivity]. Qed.

Lemma eligible_spec (w : jsstring) :
  eligible w = true -> (3 <= List.length w)%nat /\ ~ In w commonWords.
Proof.
  unfold eligible. intros He.
  apply andb_true_iff in He as [Hl Hn]. apply Nat.ltb_lt in Hl.
  split; [lia|]. intros Hin.
  apply negb_true_iff in Hn.
  assert (existsb (str_eqb w) commonWords = true); [|congruence].
  apply existsb_exists. exists w. split; [exact Hin|].
  clear. induction w as [|c w IH]; simpl; [reflexivity|].
  unfold char_eqb. now rewrite N.eqb_refl.
Qed.

Lemma no_hits_in_empty (ws : list jsstring) :
  filter (includes []) (filter eligible ws) = [].
Proof.
  induction ws as [|w ws IH]; [reflexivity|]. cbn [filter].
  destruct (eligible w) eqn:E; [|exact IH]. cbn [filter].
  rewrite includes_nil; [exact IH|].
  apply eligible_spec in E as [Hl _]. intros ->. simpl in Hl. lia.
Qed.

(** X15.  What the engine awards for the merchant is fixed by the eligible
    tokens of the merchant name alone: tokens of one or two characters and
    the words llc, inc, corp, ltd, company and co are neither counted as
    matches nor in the divisor.  With [kept] the eligible tokens and [hits]
    those of them the description contains, the award is
    [min (hits / kept * 15 + long hits * 5, 20)], given when there is a hit;
    so two merchant names with the same eligible tokens score alike, as
    ["OpenAI"] and ["OpenAI LLC Co"] do. *)
Theorem merchant_points_ignore_common_and_short_words :
  forall (U : StringLib) (rid tid : Z) (amount : option float)
         (date txDate : option jsstring) (txAmount : float)
         (merchant desc : jsstring) (st : score),
    let receipt := Receipt.mk rid amount date (Some merchant) in
    let tx := Transaction.mk tid txDate (Some desc) txAmount in
    let kept := filter eligible (split_ws false (toLowerCase merchant)) in
    let hits := filter (includes (toLowerCase desc)) kept in
    let wordMatches := List.length hits in
    let significant :=
      List.length (filter (fun w => Nat.leb 5 (List.length w)) hits) in
    merchantMatching receipt tx st
    = (if Nat.ltb 0 wordMatches
       then award (Math_min (ofNat wordMatches / ofNat (List.length kept) * 15
                             + ofNat significant * 5) 20)%Q
                  (merchantReason wordMatches significant) st
       else st)
    /\ Forall (fun w => (3 <= List.length w)%nat /\ ~ In w commonWords) kept
    /\ (forall other : jsstring,
          filter eligible (split_ws false (toLowerCase other)) = kept ->
          merchantMatching (Receipt.mk rid amount date (Some other)) tx st
          = merchantMatching receipt tx st)
    /\ merchantMatching (Receipt.mk rid amount date (Some (js "OpenAI LLC Co"))) tx st
       = merchantMatching (Receipt.mk rid amount date (Some (js "OpenAI"))) tx st.
Proof.
  intros U rid tid amount date txDate txAmount.
  assert (Main : forall (merchant desc : jsstring) (st : score),
    let kept := filter eligible (split_ws false (toLowerCase merchant)) in
    let hits := filter (includes (toLowerCase desc)) kept in
    merchantMatching (Receipt.mk rid amount date (Some merchant))
      (Transaction.mk tid txDate (Some desc) txAmount) st
    = (if Nat.ltb 0 (List.length hits)
       then award (Math_min (ofNat (List.length hits) / ofNat (List.length kept) * 15
                             + ofNat (List.length
                                        (filter (fun w => Nat.leb 5 (List.length w)) hits))
                               * 5) 20)%Q
                  (merchantReason (List.length hits)
                     (List.length (filter (fun w => Nat.leb 5 (List.length w)) hits)))
                  st
       else st)).
  { intros merchant desc st kept hits.
    unfold merchantMatching.
    cbn [Receipt.extracted_merchant Transaction.description].
    destruct merchant as [|c merchant].
    { cbn [truthyStr andb]. subst hits kept.
      rewrite (toLowerCase_ascii [] eq_refl). reflexivity. }
    destruct desc as [|e desc].
    { cbn [truthyStr andb]. subst hits.
      rewrite (toLowerCase_ascii [] eq_refl). cbn [map].
      subst kept. now rewrite no_hits_in_empty. }
    cbn [truthyStr andb].
    unfold countWords.
    rewrite (countWords_counts (toLowerCase (e :: desc))
               (split_ws false (toLowerCase (c :: merchant))) (0, 0)%nat).
    cbn [fst snd Nat.add]. reflexivity. }
  intros merchant desc st receipt tx kept hits wordMatches significant.
  split; [apply Main|]. split.
  { apply Forall_forall. intros w Hw. subst kept.
    apply filter_In in Hw as [_ He]. now apply eligible_spec. }
  split.
  { intros other Hk. subst receipt tx. rewrite !Main, Hk. reflexivity. }
  subst tx. rewrite !Main.
  rewrite (toLowerCase_ascii (js "OpenAI LLC Co") eq_refl).
  rewrite (toLowerCase_ascii (js "OpenAI") eq_refl).
  reflexivity.
Qed.

End More_words.

(* ================================================================== *)
(** * Further properties: parsing an amount                             *)
(* ================================================================== *)

Section More_parseAmount.
Import JS Regex Receipts.

(** The test [/,\d{2}$/] of [parseAmount]. *)
Definition commaCents : regex := seqs [lit ","; dg; dg; Eol].

Lemma digit_cases (c : char) :
  isDigit c = true ->
  (c = 48 \/ c = 49 \/ c = 50 \/ c = 51 \/ c = 52 \/ c = 53 \/ c = 54 \/ c = 55
   \/ c = 56 \/ c = 57)%N.
Proof.
  unfold isDigit, in_range. intros H. apply andb_true_iff in H as [H1 H2].
  apply N.leb_le in H1, H2. lia.
Qed.

Lemma digit_plain (c : char) :
  isDigit c = true ->
  currencyOrSpace c = false /\ isSpace c = false
  /\ char_eqb (ch ",") c = false /\ char_eqb c (ch ",") = false.
Proof.
  intros H.
  destruct (digit_cases c H) as [->|[->|[->|[->|[->|[->|[->|[->|[->| ->]]]]]]]]];
    vm_compute; repeat split.
Qed.

Lemma commaCents_at (pos : nat) (x : char) (s : jsstring) :
  match_at commaCents pos (x :: s)
  = if char_eqb (ch ",") x then
      match s with
      | [a; b] => if (isDigit a && isDigit b)%bool then Some (S (S (S pos)), None) else None
      | _ => None
      end
    else None.
Proof.
  unfold match_at, commaCents. cbn [seqs lit js map list_ascii_of_string one run dg].
  destruct (char_eqb (N_of_ascii ",") x) eqn:E; unfold ch; rewrite E; [|reflexivity].
  destruct s as [|a [|b [|c s]]]; try reflexivity.
  - now destruct (isDigit a).
  - now destruct (isDigit a), (isDigit b).
  - now destruct (isDigit a), (isDigit b).
Qed.

Lemma commaCents_skips_digits (ip tail : jsstring) (pos : nat) :
  forallb isDigit ip = true ->
  (exists e c, search commaCents pos (ip ++ tail) = Some e
               /\ search commaCents (pos + List.length ip) tail = Some c)
  \/ (search commaCents pos (ip ++ tail) = None
      /\ search commaCents (pos + List.length ip) tail = None).
Proof.
  revert pos. induction ip as [|x ip IH]; intros pos Hd; simpl.
  - rewrite Nat.add_0_r. destruct (search commaCents pos tail) as [e|]; [left|right]; eauto.
  - apply andb_true_iff in Hd as [Hx Hd].
    rewrite commaCents_at. destruct (digit_plain x Hx) as (_ & _ & Hc & _).
    rewrite Hc. replace (pos + S (List.length ip))%nat with (S pos + List.length ip)%nat by lia.
    apply IH, Hd.
Qed.

Lemma test_commaCents_digits (ip tail : jsstring) :
  forallb isDigit ip = true ->
  test commaCents (ip ++ tail)
  = match search commaCents (List.length ip) tail with Some _ => true | None => false end.
Proof.
  intros Hd. unfold test.
  destruct (commaCents_skips_digits ip tail 0 Hd) as [(e & c & -> & H2) | [-> H2]];
    simpl in H2; now rewrite H2.
Qed.

Lemma search_commaCents_nil (pos : nat) : search commaCents pos [] = None.
Proof. reflexivity. Qed.

Lemma remove_all_digits (p : char -> bool) (ip : jsstring) :
  (forall c, isDigit c = true -> p c = false) ->
  forallb isDigit ip = true -> remove_all p ip = ip.
Proof.
  intros Hp. unfold remove_all. induction ip as [|x ip IH]; simpl; [reflexivity|].
  intros H. apply andb_true_iff in H as [Hx H].
  rewrite (Hp x Hx). simpl. now rewrite IH.
Qed.

Lemma takeWhile_digits (ip tail : jsstring) :
  forallb isDigit ip = true ->
  takeWhile isDigit (ip ++ tail) = ip ++ takeWhile isDigit tail
  /\ dropWhile isDigit (ip ++ tail) = dropWhile isDigit tail.
Proof.
  induction ip as [|x ip IH]; simpl; [now split|].
  intros H. apply andb_true_iff in H as [Hx H]. rewrite Hx.
  destruct (IH H) as [-> ->]. now split.
Qed.

Lemma replace_first_digits (ip tail : jsstring) (d : char) :
  forallb isDigit ip = true ->
  replace_first (ch ",") d (ip ++ ch "," :: tail) = ip ++ d :: tail.
Proof.
  induction ip as [|x ip IH]; intros H.
  - cbn [app replace_first]. change (char_eqb (ch ",") (ch ",")) with true. reflexivity.
  - cbn [forallb] in H. apply andb_true_iff in H as [Hx H].
    cbn [app replace_first].
    destruct (digit_plain x Hx) as (_ & _ & _ & Hc). rewrite Hc. now rewrite IH.
Qed.

Lemma dropWhile_space_digits (ip tail : jsstring) :
  forallb isDigit ip = true ->
  match tail with [] => True | c :: _ => isSpace c = false end ->
  dropWhile isSpace (ip ++ tail) = ip ++ tail.
Proof.
  destruct ip as [|x ip]; simpl.
  - intros _. destruct tail as [|c tail]; simpl; [reflexivity|]. now intros ->.
  - intros H _. apply andb_true_iff in H as [Hx H].
    destruct (digit_plain x Hx) as (_ & Hs & _). now rewrite Hs.
Qed.

Lemma parseFloat_digits (ds : jsstring) :
  forallb isDigit ds = true -> ds <> [] ->
  parseFloat ds = decimalToDouble (digitsVal 0 ds) 0.
Proof.
  intros Hd Hne. unfold parseFloat.
  pose proof (dropWhile_space_digits ds [] Hd I) as H1.
  destruct (takeWhile_digits ds [] Hd) as [H2 H3].
  rewrite app_nil_r in H1, H2, H3. cbn [takeWhile dropWhile] in H2, H3.
  rewrite app_nil_r in H2. rewrite H1, H2, H3.
  destruct ds as [|d ds]; [contradiction|].
  cbn [List.length N.of_nat]. rewrite N.pow_0_r, N.mul_1_r.
  cbn [digitsVal]. rewrite N.add_0_r. reflexivity.
Qed.

(** X16.  A comma followed by exactly two digits at the end of the string is
    read as the decimal separator, a comma followed by three digits as a
    thousands separator: for digits [ip], ["ip,ab"] is the number ip.ab and
    ["ip,abc"] is the whole number ipabc, each as the nearest double. *)
Theorem comma_before_two_final_digits_is_decimal :
  forall (ip : jsstring) (a b c : char),
    forallb isDigit ip = true ->
    isDigit a = true -> isDigit b = true -> isDigit c = true ->
    parseAmount (ip ++ ch "," :: [a; b])
    = decimalToDouble (digitsVal 0 ip * 100 + digitsVal 0 [a; b]) 2
    /\ parseAmount (ip ++ ch "," :: [a; b; c])
       = decimalToDouble (digitsVal 0 (ip ++ [a; b; c])) 0.
Proof.
  intros ip a b c Hip Ha Hb Hc.
  assert (Hcs : forall x, isDigit x = true -> currencyOrSpace x = false)
    by (intros x Hx; apply (digit_plain x Hx)).
  assert (Hcm : forall x, isDigit x = true -> char_eqb (ch ",") x = false)
    by (intros x Hx; apply (digit_plain x Hx)).
  split.
  - unfold parseAmount.
    assert (Hclean : remove_all currencyOrSpace (ip ++ ch "," :: [a; b])
                     = ip ++ ch "," :: [a; b]).
    { unfold remove_all. rewrite filter_app.
      fold (remove_all currencyOrSpace ip). rewrite (remove_all_digits _ ip Hcs Hip).
      simpl. rewrite (Hcs a Ha), (Hcs b Hb). reflexivity. }
    rewrite Hclean. fold commaCents.
    rewrite (test_commaCents_digits ip _ Hip).
    cbn [search]. rewrite commaCents_at. rewrite Ha, Hb.
    change (char_eqb (ch ",") (ch ",")) with true. cbn [andb].
    rewrite (replace_first_digits ip _ _ Hip).
    unfold parseFloat.
    rewrite (dropWhile_space_digits ip _ Hip) by reflexivity.
    destruct (takeWhile_digits ip (ch "." :: [a; b]) Hip) as [-> ->].
    cbn [takeWhile dropWhile]. change (isDigit (ch ".")) with false. cbn iota.
    change (char_eqb (ch ".") (ch ".")) with true. cbn iota.
    assert (Hab : takeWhile isDigit [a; b] = [a; b])
      by (cbn [takeWhile]; now rewrite Ha, Hb).
    rewrite Hab, app_nil_r.
    destruct ip; reflexivity.
  - unfold parseAmount.
    assert (Hclean : remove_all currencyOrSpace (ip ++ ch "," :: [a; b; c])
                     = ip ++ ch "," :: [a; b; c]).
    { unfold remove_all. rewrite filter_app.
      fold (remove_all currencyOrSpace ip). rewrite (remove_all_digits _ ip Hcs Hip).
      simpl. rewrite (Hcs a Ha), (Hcs b Hb), (Hcs c Hc). reflexivity. }
    rewrite Hclean. fold commaCents.
    rewrite (test_commaCents_digits ip _ Hip).
    cbn [search]. rewrite !commaCents_at. 
    change (char_eqb (ch ",") (ch ",")) with true. cbn iota.
    rewrite (Hcm a Ha), (Hcm b Hb), (Hcm c Hc).
    unfold remove_all. rewrite filter_app.
    fold (remove_all (char_eqb (ch ",")) ip).
    rewrite (remove_all_digits _ ip Hcm Hip).
    cbn [filter]. change (char_eqb (ch ",") (ch ",")) with true.
    rewrite (Hcm a Ha), (Hcm b Hb), (Hcm c Hc). cbn [negb].
    assert (Hall : forallb isDigit (ip ++ [a; b; c]) = true).
    { rewrite forallb_app, Hip. simpl. now rewrite Ha, Hb, Hc. }
    apply parseFloat_digits; [exact Hall|]. now destruct ip.
Qed.

Lemma comma_before_two_final_digits_is_decimal_witness :
  parseAmount (js "12" ++ ch "," :: [ch "5"; ch "0"]) = 12.5%float
  /\ parseAmount (js "12" ++ ch "," :: [ch "5"; ch "0"; ch "0"]) = 12500%float.
Proof.
  apply (comma_before_two_final_digits_is_decimal (js "12") (ch "5") (ch "0") (ch "0"));
    reflexivity.
Defined.

End More_parseAmount.
